(** * standardize_fields.py: field renaming and numeric coercion

    A shallow embedding of [standardize_json_fields] and of the Python
    built-ins it calls ([str.replace], [str.isdigit], [in] on strings,
    [int], [float], [dict.get] and item assignment on a [dict]), followed by
    the properties of the record transform.

    Python text is a sequence of Unicode code points; a code point is a
    number of type [N].  The character classes are those of Unicode 14.0
    (CPython 3.11). *)

From Stdlib Require Import List NArith ZArith QArith String Ascii Bool Lia.
Import ListNotations.

Set Implicit Arguments.

(** ** Text *)

Module Text.

Definition char := N.
Definition str := list char.

(** A text written with characters below 256, as in the source file. *)
Definition lit (s : string) : str :=
  List.map N_of_ascii (list_ascii_of_string s).

Fixpoint str_eqb (a b : str) : bool :=
  match a, b with
  | [], [] => true
  | x :: a', y :: b' => N.eqb x y && str_eqb a' b'
  | _, _ => false
  end.

(** [s.startswith(p)] *)
Fixpoint starts_with (p s : str) : bool :=
  match p, s with
  | [], _ => true
  | x :: p', y :: s' => N.eqb x y && starts_with p' s'
  | _ :: _, [] => false
  end.

(** [sub in s] *)
Fixpoint contains (sub s : str) : bool :=
  match s with
  | [] => starts_with sub []
  | _ :: s' => starts_with sub s || contains sub s'
  end.

(** The scan of [s.replace(old, new)] for a non-empty [old]: left to right,
    occurrences do not overlap.  [skip] counts the characters of the current
    occurrence that are still to be dropped. *)
Fixpoint replace_from (old new : str) (skip : nat) (s : str) : str :=
  match s with
  | [] => []
  | c :: s' =>
      match skip with
      | S k => replace_from old new k s'
      | O =>
          if starts_with old s
          then new ++ replace_from old new (List.length old - 1) s'
          else c :: replace_from old new 0 s'
      end
  end.

(** [s.replace(old, new)]; an empty [old] matches before every character and
    at the end. *)
Definition replace (old new s : str) : str :=
  match old with
  | [] => new ++ flat_map (fun c => c :: new) s
  | _ :: _ => replace_from old new 0 s
  end.

End Text.

(** ** Character classes *)

Module Unicode.
Import Text.

Local Open Scope N_scope.

(** Runs of decimal digits (general category Nd): first code point and
    length.  In a run the digit value of [c] is [(c - first) mod 10]. *)
Definition decimal_runs : list (N * N) :=
  [ (0x30, 10); (0x660, 10); (0x6f0, 10); (0x7c0, 10); (0x966, 10);
    (0x9e6, 10); (0xa66, 10); (0xae6, 10); (0xb66, 10); (0xbe6, 10);
    (0xc66, 10); (0xce6, 10); (0xd66, 10); (0xde6, 10); (0xe50, 10);
    (0xed0, 10); (0xf20, 10); (0x1040, 10); (0x1090, 10); (0x17e0, 10);
    (0x1810, 10); (0x1946, 10); (0x19d0, 10); (0x1a80, 10); (0x1a90, 10);
    (0x1b50, 10); (0x1bb0, 10); (0x1c40, 10); (0x1c50, 10); (0xa620, 10);
    (0xa8d0, 10); (0xa900, 10); (0xa9d0, 10); (0xa9f0, 10); (0xaa50, 10);
    (0xabf0, 10); (0xff10, 10); (0x104a0, 10); (0x10d30, 10); (0x11066, 10);
    (0x110f0, 10); (0x11136, 10); (0x111d0, 10); (0x112f0, 10); (0x11450, 10);
    (0x114d0, 10); (0x11650, 10); (0x116c0, 10); (0x11730, 10); (0x118e0, 10);
    (0x11950, 10); (0x11c50, 10); (0x11d50, 10); (0x11da0, 10); (0x16a60, 10);
    (0x16ac0, 10); (0x16b50, 10); (0x1d7ce, 50); (0x1e140, 10); (0x1e2f0, 10);
    (0x1e950, 10); (0x1fbf0, 10) ].

(** Characters of numeric type Digit that are not decimal (superscripts,
    circled digits, ...): inclusive ranges. *)
Definition digit_only_ranges : list (N * N) :=
  [ (0xb2, 0xb3); (0xb9, 0xb9); (0x1369, 0x1371); (0x19da, 0x19da);
    (0x2070, 0x2070); (0x2074, 0x2079); (0x2080, 0x2089); (0x2460, 0x2468);
    (0x2474, 0x247c); (0x2488, 0x2490); (0x24ea, 0x24ea); (0x24f5, 0x24fd);
    (0x24ff, 0x24ff); (0x2776, 0x277e); (0x2780, 0x2788); (0x278a, 0x2792);
    (0x10a40, 0x10a43); (0x10e60, 0x10e68); (0x11052, 0x1105a);
    (0x1f100, 0x1f10a) ].

(** White space of [str.isspace]: inclusive ranges. *)
Definition space_ranges : list (N * N) :=
  [ (0x9, 0xd); (0x1c, 0x20); (0x85, 0x85); (0xa0, 0xa0); (0x1680, 0x1680);
    (0x2000, 0x200a); (0x2028, 0x2029); (0x202f, 0x202f); (0x205f, 0x205f);
    (0x3000, 0x3000) ].

Definition in_range (c : char) (r : N * N) : bool :=
  (fst r <=? c) && (c <=? snd r).

Definition in_run (c : char) (r : N * N) : bool :=
  (fst r <=? c) && (c <? fst r + snd r).

(** The decimal digit value of a character, if it has one. *)
Definition decimal (c : char) : option N :=
  match find (in_run c) decimal_runs with
  | Some r => Some ((c - fst r) mod 10)
  | None => None
  end.

Definition isdecimal (c : char) : bool :=
  match decimal c with Some _ => true | None => false end.

(** One character of [str.isdigit]: numeric type Decimal or Digit. *)
Definition isdigit (c : char) : bool :=
  isdecimal c || existsb (in_range c) digit_only_ranges.

Definition isspace (c : char) : bool :=
  existsb (in_range c) space_ranges.

(** The C-locale classes CPython uses on ASCII buffers. *)
Definition ascii_isdigit (c : char) : bool := (0x30 <=? c) && (c <=? 0x39).

Definition ascii_isspace (c : char) : bool :=
  ((0x9 <=? c) && (c <=? 0xd)) || (c =? 0x20).

End Unicode.

(** [s.isdigit()]: every character is a digit and there is at least one. *)
Definition py_isdigit (s : Text.str) : bool :=
  match s with
  | [] => false
  | _ :: _ => forallb Unicode.isdigit s
  end.

(** ** Exceptions *)

Inductive exn : Type :=
| ValueError
| TypeError
| OverflowError
| MemoryError
| OSError.

Inductive result (A : Type) : Type :=
| Ok (a : A)
| Raise (e : exn).

Arguments Ok {A} a.
Arguments Raise {A} e.

Definition bind {A B : Type} (c : result A) (k : A -> result B) : result B :=
  match c with
  | Ok a => k a
  | Raise e => Raise e
  end.

Notation "x <- c ;; k" := (bind c (fun x => k))
  (at level 61, c at next level, right associativity).

(** [try: body  except (ValueError, TypeError): handler]: the two classes
    are caught, any other exception goes on to the caller. *)
Definition try_except_ValueError_TypeError {A : Type}
    (body : result A) (handler : result A) : result A :=
  match body with
  | Ok a => Ok a
  | Raise ValueError => handler
  | Raise TypeError => handler
  | Raise e => Raise e
  end.

(** ** The built-ins [int] and [float] on text *)

(** A Python float.  [FFinite neg m e] stands for the binary64 number that
    CPython rounds the decimal [(-1)^neg * m * 10^e] to (an infinity when it
    overflows); the decimal is kept exact and the rounding, which is the
    platform's, is left out. *)
Inductive PyFloat : Type :=
| FFinite (neg : bool) (m : N) (e : Z)
| FInf (neg : bool)
| FNan (neg : bool).

(** The decimal a finite float was read from. *)
Definition decimal_value (f : PyFloat) : option Q :=
  match f with
  | FFinite neg m e =>
      let q := (inject_Z (Z.of_N m) * Qpower (10 # 1) e)%Q in
      Some (if neg then Qopp q else q)
  | _ => None
  end.

Module Builtins.
Import Text.

Local Open Scope N_scope.

(** Default of [sys.get_int_max_str_digits()]. *)
Definition int_max_str_digits : nat := 4300.

(** [_PyUnicode_TransformDecimalAndSpaceToASCII]: characters below 127 are
    kept, other white space becomes a space, other decimal digits become
    ASCII digits; at any other character the buffer ends with a ['?']. *)
Fixpoint to_ascii (s : str) : str :=
  match s with
  | [] => []
  | c :: s' =>
      if c <? 127 then c :: to_ascii s'
      else if Unicode.isspace c then 0x20 :: to_ascii s'
      else match Unicode.decimal c with
           | Some d => (0x30 + d) :: to_ascii s'
           | None => [0x3f]
           end
  end.

Fixpoint skip_space (s : str) : str :=
  match s with
  | [] => []
  | c :: s' => if Unicode.ascii_isspace c then skip_space s' else s
  end.

(** An optional ['+'] or ['-']. *)
Definition take_sign (s : str) : bool * str :=
  match s with
  | c :: s' =>
      if c =? 0x2d then (true, s')
      else if c =? 0x2b then (false, s')
      else (false, s)
  | [] => (false, [])
  end.

(** Base-10 value of a list of digit values, most significant first. *)
Definition digits_value (ds : list N) : N :=
  fold_left (fun acc d => 10 * acc + d) ds 0.

(** The digit scan of [PyLong_FromString]: digits with single underscores
    between them.  [prev_us] tells that the previous character was ['_'].
    Gives the digit values and the unread rest. *)
Fixpoint scan_int (prev_us : bool) (s : str) : option (list N * str) :=
  match s with
  | [] => if prev_us then None else Some ([], [])
  | c :: s' =>
      if Unicode.ascii_isdigit c then
        match scan_int false s' with
        | Some (ds, rest) => Some ((c - 0x30) :: ds, rest)
        | None => None
        end
      else if c =? 0x5f then
        if prev_us then None else scan_int true s'
      else if prev_us then None else Some ([], s)
  end.

(** [int(text)]. *)
Definition py_int (text : str) : result Z :=
  let (neg, s) := take_sign (skip_space (to_ascii text)) in
  if starts_with [0x5f] s then Raise ValueError
  else
    match scan_int false s with
    | None => Raise ValueError
    | Some (ds, rest) =>
        if Nat.ltb int_max_str_digits (List.length ds) then Raise ValueError
        else
          match ds, skip_space rest with
          | _ :: _, [] =>
              let v := Z.of_N (digits_value ds) in
              Ok (if neg then Z.opp v else v)
          | _, _ => Raise ValueError
          end
    end.

(** [_Py_string_to_number_with_underscores]: an underscore is dropped when
    it stands between two digits and is an error anywhere else. *)
Fixpoint remove_underscores (prev : char) (s : str) : option str :=
  match s with
  | [] => if prev =? 0x5f then None else Some []
  | c :: s' =>
      if c =? 0x5f then
        if Unicode.ascii_isdigit prev then remove_underscores c s' else None
      else if (prev =? 0x5f) && negb (Unicode.ascii_isdigit c) then None
      else option_map (cons c) (remove_underscores c s')
  end.

Fixpoint span_digits (s : str) : list N * str :=
  match s with
  | [] => ([], [])
  | c :: s' =>
      if Unicode.ascii_isdigit c
      then let (ds, rest) := span_digits s' in ((c - 0x30) :: ds, rest)
      else ([], s)
  end.

(** The exponent part of a decimal number: ['e'] or ['E'], an optional sign
    and at least one digit; otherwise nothing is read. *)
Definition parse_exponent (s : str) : Z * str :=
  match s with
  | c :: s1 =>
      if (c =? 0x65) || (c =? 0x45) then
        let (eneg, s2) := take_sign s1 in
        let (ds, s3) := span_digits s2 in
        match ds with
        | [] => (0%Z, s)
        | _ :: _ =>
            let v := Z.of_N (digits_value ds) in
            ((if eneg then Z.opp v else v), s3)
        end
      else (0%Z, s)
  | [] => (0%Z, [])
  end.

(** [_Py_dg_strtod]: sign, digits, an optional point and digits (one digit
    at least in all), an optional exponent.  Gives the number and the unread
    rest, or nothing when no number starts here. *)
Definition strtod (s : str) : option (PyFloat * str) :=
  let (neg, s1) := take_sign s in
  let (ip, s2) := span_digits s1 in
  let (fp, s3) :=
    match s2 with
    | c :: s2' => if c =? 0x2e then span_digits s2' else ([], s2)
    | [] => ([], [])
    end in
  match ip ++ fp with
  | [] => None
  | ds =>
      let (e, s4) := parse_exponent s3 in
      Some (FFinite neg (digits_value ds) (e - Z.of_nat (List.length fp)), s4)
  end.

Definition tolower (c : char) : char :=
  if (0x41 <=? c) && (c <=? 0x5a) then c + 32 else c.

(** [case_insensitive_match]: the rest after the lower-case word [t]. *)
Fixpoint match_word (t : str) (s : str) : option str :=
  match t, s with
  | [], _ => Some s
  | x :: t', c :: s' => if tolower c =? x then match_word t' s' else None
  | _ :: _, [] => None
  end.

(** [_Py_parse_inf_or_nan] *)
Definition parse_inf_or_nan (s : str) : option (PyFloat * str) :=
  let (neg, s1) := take_sign s in
  match match_word (lit "inf") s1 with
  | Some s2 =>
      match match_word (lit "inity") s2 with
      | Some s3 => Some (FInf neg, s3)
      | None => Some (FInf neg, s2)
      end
  | None =>
      match match_word (lit "nan") s1 with
      | Some s2 => Some (FNan neg, s2)
      | None => None
      end
  end.

(** [float(text)]. *)
Definition py_float (text : str) : result PyFloat :=
  match remove_underscores 0 (to_ascii text) with
  | None => Raise ValueError
  | Some s =>
      let s1 := skip_space s in
      let number :=
        match strtod s1 with
        | Some r => Some r
        | None => parse_inf_or_nan s1
        end in
      match number with
      | Some (f, rest) =>
          match skip_space rest with
          | [] => Ok f
          | _ :: _ => Raise ValueError
          end
      | None => Raise ValueError
      end
  end.

End Builtins.

(** ** Values and records *)

(** What [json.load] produces. *)
#[warnings="-register-all"]
Inductive jvalue : Type :=
| VNone
| VBool (b : bool)
| VInt (z : Z)
| VFloat (f : PyFloat)
| VStr (s : Text.str)
| VList (l : list jvalue)
| VDict (d : list (Text.str * jvalue)).

(** A Python [dict] with text keys: the items in insertion order, every key
    once. *)
Module Dict.
Import Text.

Section WithValues.
Variable V : Type.

Definition dict := list (str * V).

(** [d.get(k)] *)
Fixpoint get (d : dict) (k : str) : option V :=
  match d with
  | [] => None
  | (k', v) :: d' => if str_eqb k' k then Some v else get d' k
  end.

(** [d.get(k, default)] *)
Definition get_default (d : dict) (k : str) (default : V) : V :=
  match get d k with
  | Some v => v
  | None => default
  end.

(** [d[k] = v]: a key already there keeps its place and takes the new
    value, a new key goes to the end. *)
Fixpoint set (d : dict) (k : str) (v : V) : dict :=
  match d with
  | [] => [(k, v)]
  | (k', v') :: d' =>
      if str_eqb k' k then (k', v) :: d' else (k', v') :: set d' k v
  end.

Definition keys (d : dict) : list str := List.map fst d.

(** [d.items()] *)
Definition items (d : dict) : list (str * V) := d.

(** A dict display [{k1: v1, k2: v2, ...}]. *)
Definition display (entries : list (str * V)) : dict :=
  fold_left (fun d kv => set d (fst kv) (snd kv)) entries [].

End WithValues.

End Dict.

Definition jrecord := Dict.dict jvalue.

(** ** The program *)

Import Text.

Definition entry (k v : string) : str * str := (lit k, lit v).
Arguments entry (k v)%_string_scope.

(** Field mapping from old names to new standardized camelCase names
    (lines 11-140). *)
Definition FIELD_MAPPING : Dict.dict str :=
  Dict.display [
    (* Basic identifiers *)
    entry "LOC_ID" "locId";
    entry "Airport" "airportName";
    entry "City" "city";
    entry "State" "state";
    entry "Hub_FY25" "hubSize";
    entry "FYE" "fiscalYearEnd";
    entry "Date Filed" "dateFiled";
    entry "FYE_year" "fiscalYear";
    entry "NTAD_LAT_DECIMAL" "latitude";
    entry "NTAD_LONG_DECIMAL" "longitude";
    (* Passenger Aeronautical Revenue (1.1-1.5) *)
    entry "passenger_airline_landing_fees" "passengerAirlineLandingFees";
    entry "terminal_arrival_rent_util" "terminalArrivalRentUtil";
    entry "terminal_apron_charges" "terminalApronCharges";
    entry "federal_inspection_fees" "federalInspectionFees";
    entry "other_passenger_aero_fees" "otherPassengerAeroFees";
    entry "Total Passenger Airline Aeronautical Revenue" "totalPassengerAeroRevenue";
    (* Non-Passenger Aeronautical Revenue (2.1-2.8) *)
    entry "landing_fees_cargo" "cargoLandingFees";
    entry "landing_fees_ga_mil" "gaAndMilitaryLandingFees";
    entry "fbo_revenue" "fboRevenue";
    entry "cargo_hangar_rentals" "cargoHangarRentals";
    entry "aviation_fuel_tax_retained" "aviationFuelTaxRetained";
    entry "fuel_sales_or_flowage" "fuelSalesOrFlowage";
    entry "security_reimb_fed" "federalSecurityReimbursement";
    entry "other_nonpassenger_aero" "otherNonpassengerAeroRevenue";
    entry "Total Non-Passenger Aeronautical Revenue" "totalNonpassengerAeroRevenue";
    (* Non-Aeronautical Revenue (4.1-4.8) *)
    entry "land_nonterminal_leases" "landAndNonterminalLeases";
    entry "terminal_food_bev" "terminalFoodAndBeverage";
    entry "terminal_retail_dutyfree" "terminalRetailAndDutyFree";
    entry "terminal_services_other" "terminalServicesAndOther";
    entry "rental_cars_excl_cfc" "rentalCarsExclCfc";
    entry "parking_ground_transport" "parkingAndGroundTransport";
    entry "hotel" "hotelRevenue";
    entry "other_nonaero" "otherNonAeroRevenue";
    (* Operating Expenses (6.1-6.8) *)
    entry "personnel_comp_benefits" "personnelCompensationAndBenefits";
    entry "communications_utilities" "communicationsAndUtilities";
    entry "supplies_materials" "suppliesAndMaterials";
    entry "contractual_services" "contractualServices";
    entry "insurance_claims_settlements" "insuranceClaimsAndSettlements";
    entry "other_operating_expenses" "otherOperatingExpenses";
    entry "depreciation" "depreciation";
    (* Income/Revenue Categories *)
    entry "Operating Income" "operatingIncome";
    entry "op_income" "totalOperatingIncome";  (* Keep calculated version separate *)
    (* Non-Operating Items (8.1-8.7) *)
    entry "interest_income" "interestIncome";
    entry "interest_expense" "interestExpense";
    entry "grant_receipts" "grantReceipts";
    entry "pfc" "passengerFacilityCharges";
    entry "capital_contributions" "capitalContributions";
    entry "special_items_loss" "specialItemsLoss";
    entry "other_nonoperating_revenue" "otherNonoperatingRevenue";
    (* Net Assets (9.1-9.3) *)
    entry "net_assets_change" "netAssetsChange";
    entry "net_assets_beg" "netAssetsBeginning";
    entry "net_assets_end" "netAssetsEnd";
    (* Capital Expenditures (10.1-10.5) *)
    entry "Airfield" "airfieldCapex";
    entry "Terminal" "terminalCapex";
    entry "Parking" "parkingCapex";
    entry "Roadways - Rail - Transit" "roadwaysRailTransitCapex";
    entry "Other Capital Expenditures" "otherCapitalExpenditures";
    entry "total_capex" "totalCapex";
    (* Debt (11.1-11.3) *)
    entry "Long Term Bonds" "longTermBonds";
    entry "Loans and interim financing" "loansAndInterimFinancing";
    entry "Special facility bonds" "specialFacilityBonds";
    entry "total_debt_end_year" "totalDebtEndYear";
    (* Restricted Assets (12.1-12.4) *)
    entry "restricted_debt_reserves" "restrictedDebtReserves";
    entry "restricted_renewals_repl" "restrictedRenewalsAndReplacements";
    entry "Restricted other" "restrictedOther";
    entry "Total Restricted Assets" "totalRestrictedAssets";
    (* Cash and Investments (13.0) *)
    entry "unrestricted_cash_investments" "unrestrictedCashAndInvestments";
    (* Other Financial Items *)
    entry "Bond proceeds" "bondProceeds";
    entry "proceeds_sale_property" "proceedsSaleOfProperty";
    entry "debt_service_excl_coverage" "debtServiceExclCoverage";
    entry "debt_service_net_pfc" "debtServiceNetPfc";
    (* Operations & Performance Metrics *)
    entry "enplanements" "enplanements";
    entry "Landed weights in pounds" "landedWeightsInPounds";
    entry "Signatory landing fee rate per 1000 lbs" "signatoryLandingFeeRatePer1000Lbs";
    entry "Annual aircraft operations" "annualAircraftOperations";
    entry "Passenger airline cost per enplanement" "passengerAirlineCostPerEnplanement";
    entry "Full time equivalent employees at end of year" "fullTimeEquivalentEmployees";
    (* Cost Categories *)
    entry "Security and law enforcement costs" "securityAndLawEnforcementCosts";
    entry "ARFF costs" "arffCosts";
    entry "Repairs and maintenance" "repairsAndMaintenance";
    entry "Marketing - Advertising - Promotions" "marketingAdvertisingPromotions";
    (* Calculated Aggregates (from data processing) *)
    entry "aero_passenger_rev" "totalAeroPassengerRevenue";
    entry "aero_nonpassenger_rev" "totalAeroNonpassengerRevenue";
    entry "aero_total_rev" "totalAeronauticalRevenue";
    entry "nonaero_rev" "totalNonAeronauticalRevenue";
    entry "op_rev" "totalOperatingRevenue";
    entry "op_exp" "totalOperatingExpenses";
    entry "nonop_net_and_capital" "totalNonoperatingNetAndCapital";
    entry "capex_total" "totalCapitalExpenditures";
    entry "debt_total" "totalDebt";
    entry "restricted_assets_total" "totalRestrictedAssetsCalculated";
    entry "reporting_year_proceeds" "reportingYearProceeds";
    entry "debt_service_total" "totalDebtService";
    (* KPIs *)
    entry "kpi_cpe" "costPerEnplanement";
    entry "kpi_oper_margin" "operatingMargin"
  ].

(** The guard of the conversion (line 166):
    [value.replace('.', '').replace('-', '').replace('E+', '')
          .replace('e+', '').isdigit()] *)
Definition stripped (value : str) : str :=
  replace (lit "e+") []
    (replace (lit "E+") []
       (replace (lit "-") []
          (replace (lit ".") [] value))).

Definition purely_numeric (value : str) : bool := py_isdigit (stripped value).

(** The conversion inside the [try] (lines 168-173). *)
Definition convert (value : str) : result jvalue :=
  if contains (lit "E+") value || contains (lit "e+") value then
    f <- Builtins.py_float value ;; Ok (VFloat f)
  else if contains (lit ".") value then
    f <- Builtins.py_float value ;; Ok (VFloat f)
  else
    z <- Builtins.py_int value ;; Ok (VInt z).

(** Convert string numbers to actual numbers where appropriate
    (lines 166-175): the value that is stored for [value]. *)
Definition numeric_coercion (value : jvalue) : result jvalue :=
  match value with
  | VStr s =>
      if purely_numeric s
      then try_except_ValueError_TypeError (convert s) (Ok value)
      else Ok value
  | _ => Ok value
  end.

(** [FIELD_MAPPING.get(old_field, old_field)] (line 163) *)
Definition new_field (old_field : str) : str :=
  Dict.get_default FIELD_MAPPING old_field old_field.

(** The loop over [record.items()] (lines 162-177). *)
Fixpoint items_loop (items : list (str * jvalue)) (new_record : jrecord)
  : result jrecord :=
  match items with
  | [] => Ok new_record
  | (old_field, value) :: rest =>
      value' <- numeric_coercion value ;;
      items_loop rest (Dict.set new_record (new_field old_field) value')
  end.

(** The body of the loop over the records (lines 159-179): one record
    gives one new record. *)
Definition standardize_record (record : jrecord) : result jrecord :=
  items_loop (Dict.items record) [].

(** What the program prints. *)
Inductive printed : Type :=
| LoadingDataFrom (input_file : str)
| ProcessingRecords (n : nat)
| ProcessingRecord (n : nat)
| WritingTo (output_file : str)
| Complete
| SummaryHeader
| TotalFieldsMapped (n : nat)
| RecordsProcessed (n : nat).

(** The loop over [enumerate(data)] (lines 155-179), from index [i] on. *)
Fixpoint records_loop (i : nat) (data : list jrecord)
    (standardized_data : list jrecord) (stdout : list printed)
  : list printed * result (list jrecord) :=
  match data with
  | [] => (stdout, Ok standardized_data)
  | record :: rest =>
      let stdout :=
        if Nat.eqb (Nat.modulo i 1000) 0
        then stdout ++ [ProcessingRecord (i + 1)]
        else stdout in
      match standardize_record record with
      | Ok new_record =>
          records_loop (S i) rest (standardized_data ++ [new_record]) stdout
      | Raise e => (stdout, Raise e)
      end
  end.

(** [standardize_json_fields(input_file, output_file)], where [data] is
    what [json.load] read from [input_file]: the lines printed and the list
    handed to [json.dump], in a run whose write (lines 182-183) succeeds;
    [standardize_json_fields_run] has the failing write as well. *)
Definition standardize_json_fields (input_file output_file : str)
    (data : list jrecord) : list printed * result (list jrecord) :=
  let stdout := [LoadingDataFrom input_file;
                 ProcessingRecords (List.length data)] in
  match records_loop 0 data [] stdout with
  | (stdout, Ok standardized_data) =>
      (stdout ++ [WritingTo output_file; Complete; SummaryHeader;
                  TotalFieldsMapped (List.length FIELD_MAPPING);
                  RecordsProcessed (List.length standardized_data)],
       Ok standardized_data)
  | (stdout, Raise e) => (stdout, Raise e)
  end.

(** The whole of [standardize_json_fields(input_file, output_file)] (lines
    142-190), where [data] is what [json.load] read from [input_file] and
    [written] is how [open(output_file, 'w')] and [json.dump] end: done, or
    the exception they raise.  The closing lines are printed after the write
    only; an exception of the write ends the run. *)
Definition standardize_json_fields_run (input_file output_file : str)
    (data : list jrecord) (written : result unit)
  : list printed * result (list jrecord) :=
  let stdout := [LoadingDataFrom input_file;
                 ProcessingRecords (List.length data)] in
  match records_loop 0 data [] stdout with
  | (stdout, Ok standardized_data) =>
      let stdout := stdout ++ [WritingTo output_file] in
      match written with
      | Ok _ =>
          (stdout ++ [Complete; SummaryHeader;
                      TotalFieldsMapped (List.length FIELD_MAPPING);
                      RecordsProcessed (List.length standardized_data)],
           Ok standardized_data)
      | Raise e => (stdout, Raise e)
      end
  | (stdout, Raise e) => (stdout, Raise e)
  end.

(** ** Auxiliary definitions of the proofs *)

(** The canonical keys: the right-hand sides of the table. *)
Definition canonical_keys : list str := List.map snd FIELD_MAPPING.

Fixpoint mem (k : str) (l : list str) : bool :=
  match l with
  | [] => false
  | k' :: l' => str_eqb k' k || mem k l'
  end.

Fixpoint distinct (l : list str) : bool :=
  match l with
  | [] => true
  | k :: l' => negb (mem k l') && distinct l'
  end.

(** The characters the guard removes: ['.'], ['-'], ['E'], ['e'], ['+']. *)
Definition symbols : list char := [0x2e; 0x2d; 0x45; 0x65; 0x2b]%N.

(** The value that is stored for [value]: what [numeric_coercion] returns,
    and [value] itself should it raise. *)
Definition coerced (value : jvalue) : jvalue :=
  match numeric_coercion value with
  | Ok v => v
  | Raise _ => value
  end.

(** One turn of the loop over the items, with the stored value. *)
Definition step (new_record : jrecord) (item : str * jvalue) : jrecord :=
  Dict.set new_record (new_field (fst item)) (coerced (snd item)).

(** The new record of a record. *)
Definition renamed (record : jrecord) : jrecord := fold_left step record [].

(** The keys of [l] in the order of their first occurrence, without those
    of [seen]. *)
Fixpoint keep_first (seen l : list str) : list str :=
  match l with
  | [] => []
  | k :: l' =>
      if mem k seen then keep_first seen l'
      else k :: keep_first (seen ++ [k]) l'
  end.

(** The progress lines of a run over [n] records: one for every index that
    is a multiple of 1000. *)
Definition progress_marks (n : nat) : list printed :=
  List.map (fun i => ProcessingRecord (i + 1))
    (filter (fun i => Nat.eqb (Nat.modulo i 1000) 0) (seq 0 n)).

(** The digit values of a text of ASCII digits. *)
Definition digit_values (s : str) : list N :=
  List.map (fun c => (c - 0x30)%N) s.

(** A text of ASCII digits. *)
Definition ascii_digits (s : str) : Prop :=
  Forall (fun c => Unicode.ascii_isdigit c = true) s.

(** An optional minus sign. *)
Definition minus (neg : bool) : str := if neg then [0x2d%N] else [].

(** The fraction part of a numeral, if it has one: a point and digits. *)
Definition fraction (fp : option str) : str :=
  match fp with
  | Some digits => 0x2e%N :: digits
  | None => []
  end.

Definition fraction_digits (fp : option str) : str :=
  match fp with
  | Some digits => digits
  | None => []
  end.

(** The sign of a float: set for negative numbers, for [-0.0], for [-inf]
    and for a NaN with the sign bit. *)
Definition float_negative (f : PyFloat) : bool :=
  match f with
  | FFinite neg _ _ => neg
  | FInf neg => neg
  | FNan neg => neg
  end.

(** A float that was read from the decimal [q]. *)
Definition reads_as (f : PyFloat) (q : Q) : Prop :=
  match decimal_value f with
  | Some q' => Qeq q' q
  | None => False
  end.

(** ** The numeric coercion in the words of the specification

    Section 4.2: a value that is not text is left unchanged; a text is
    "purely numeric" when, after all ['.'], all ['-'] and the substrings
    ["E+"] and ["e+"] are removed, what remains is composed entirely of digit
    characters (those of [str.isdigit]); such a text is parsed as floating-point if it contains ["E+"]
    or ["e+"], else as floating-point if it contains ['.'], else as an
    integer; if parsing raises, the original text is kept. *)

Definition remove_char (a : char) (s : str) : str :=
  filter (fun c => negb (N.eqb c a)) s.

Definition spec_remaining (s : str) : str :=
  replace (lit "e+") []
    (replace (lit "E+") []
       (remove_char 0x2d%N (remove_char 0x2e%N s))).

Definition spec_purely_numeric (s : str) : bool :=
  forallb Unicode.isdigit (spec_remaining s).

Definition spec_parse (s : str) : result jvalue :=
  if contains (lit "E+") s || contains (lit "e+") s then
    match Builtins.py_float s with
    | Ok f => Ok (VFloat f)
    | Raise e => Raise e
    end
  else if contains (lit ".") s then
    match Builtins.py_float s with
    | Ok f => Ok (VFloat f)
    | Raise e => Raise e
    end
  else
    match Builtins.py_int s with
    | Ok z => Ok (VInt z)
    | Raise e => Raise e
    end.

Definition spec_numeric_coercion (value : jvalue) : jvalue :=
  match value with
  | VStr s =>
      if spec_purely_numeric s then
        match spec_parse s with
        | Ok number => number
        | Raise _ => value
        end
      else value
  | _ => value
  end.

(** * Properties *)

(** ** Text *)

Module TextFacts.
Import Text.

Lemma str_eqb_spec (a b : str) : reflect (a = b) (str_eqb a b).
Proof.
  revert b. induction a as [|x a IH]; intros [|y b]; simpl;
    try (constructor; congruence).
  destruct (N.eqb_spec x y) as [->|Hxy]; simpl.
  - destruct (IH b) as [->|Hab]; constructor; congruence.
  - constructor; congruence.
Qed.

Lemma str_eqb_eq (a b : str) : str_eqb a b = true <-> a = b.
Proof. destruct (str_eqb_spec a b); split; congruence. Qed.

Lemma str_eqb_refl (a : str) : str_eqb a a = true.
Proof. apply str_eqb_eq; reflexivity. Qed.

Lemma str_eqb_neq (a b : str) : str_eqb a b = false <-> a <> b.
Proof. destruct (str_eqb_spec a b); split; congruence. Qed.

Lemma starts_with_split (p s : str) :
  starts_with p s = true -> s = p ++ skipn (List.length p) s.
Proof.
  revert s. induction p as [|x p IH]; intros [|y s]; simpl; try congruence.
  intros H. apply andb_prop in H as [Hxy Hp].
  apply N.eqb_eq in Hxy. subst y. f_equal. now apply IH.
Qed.

Lemma starts_with_app (p s : str) : starts_with p (p ++ s) = true.
Proof.
  induction p as [|x p IH]; simpl; [reflexivity|].
  now rewrite N.eqb_refl.
Qed.

(** A scan that still has [k] characters to drop goes on after them. *)
Lemma replace_from_skip (old new : str) (k : nat) (s : str) :
  replace_from old new k s = replace_from old new 0 (skipn k s).
Proof.
  revert k. induction s as [|c s IH]; intros [|k]; simpl; auto.
Qed.

Lemma replace_from_nomatch (old new : str) (c : char) (s : str) :
  starts_with old (c :: s) = false ->
  replace_from old new 0 (c :: s) = c :: replace_from old new 0 s.
Proof. simpl replace_from. intros ->. reflexivity. Qed.

Lemma replace_from_match (old new s : str) :
  old <> [] ->
  replace_from old new 0 (old ++ s) = new ++ replace_from old new 0 s.
Proof.
  destruct old as [|x old]; [congruence|]. intros _.
  change ((x :: old) ++ s) with (x :: (old ++ s)).
  unfold replace_from at 1; fold replace_from.
  change (x :: old ++ s) with ((x :: old) ++ s).
  rewrite starts_with_app. f_equal.
  rewrite replace_from_skip.
  replace (List.length (x :: old) - 1)%nat with (List.length old)
    by (simpl; lia).
  now rewrite skipn_app, skipn_all, Nat.sub_diag.
Qed.

(** A character that does not occur in [old] survives the replacement. *)
Lemma replace_from_keeps (old new : str) (c : char) :
  old <> [] -> ~ In c old ->
  forall s, In c s -> In c (replace_from old new 0 s).
Proof.
  intros Hold Hc s.
  remember (List.length s) as n eqn:Hn.
  revert s Hn. induction n as [n IH] using lt_wf_ind. intros s Hn Hin.
  destruct s as [|d s]; [contradiction|].
  destruct (starts_with old (d :: s)) eqn:Hm.
  - pose proof (starts_with_split _ _ Hm) as Hs.
    rewrite Hs, replace_from_match by assumption.
    apply in_or_app. right.
    apply (IH (List.length (skipn (List.length old) (d :: s)))); auto.
    + subst n. rewrite length_skipn.
      destruct old; [congruence|]. simpl. lia.
    + rewrite Hs in Hin. apply in_app_or in Hin as [Hin|Hin]; tauto.
  - rewrite replace_from_nomatch by assumption.
    destruct Hin as [->|Hin]; [now left|right].
    apply (IH (List.length s)); auto. subst n. simpl. lia.
Qed.

Lemma replace_keeps (old new : str) (c : char) (s : str) :
  old <> [] -> ~ In c old -> In c s -> In c (replace old new s).
Proof.
  intros Hold Hc Hin. destruct old as [|x old]; [congruence|].
  now apply replace_from_keeps.
Qed.

(** Nothing is replaced in a text without the last character of a
    two-character [old]. *)
Lemma replace_pair_absent (a b : char) (new s : str) :
  ~ In b s -> replace [a; b] new s = s.
Proof.
  unfold replace. induction s as [|c s IH]; intros Hb; [reflexivity|].
  rewrite replace_from_nomatch.
  - f_equal. apply IH. intros H. apply Hb. now right.
  - simpl. destruct s as [|d s]; [now rewrite andb_false_r|].
    destruct (N.eqb_spec b d) as [->|_].
    + exfalso. apply Hb. right. now left.
    + now rewrite andb_false_r.
Qed.

(** The replacement only removes characters when [new] is empty. *)
Lemma replace_from_subset (old : str) (c : char) :
  forall s k, In c (replace_from old [] k s) -> In c s.
Proof.
  induction s as [|d s IH]; intros k; simpl; [tauto|].
  destruct k as [|k].
  - destruct (starts_with old (d :: s)).
    + simpl. intros H. right. eapply IH, H.
    + intros [->|H]; [now left|right]. eapply IH, H.
  - intros H. right. eapply IH, H.
Qed.

Lemma py_isdigit_all (s : str) (c : char) :
  py_isdigit s = true -> In c s -> Unicode.isdigit c = true.
Proof.
  destruct s as [|d s]; [discriminate|].
  unfold py_isdigit. intros H Hin.
  rewrite forallb_forall in H. now apply H.
Qed.

End TextFacts.

(** ** The built-ins *)

Module BuiltinFacts.
Import Text Builtins.

Local Open Scope N_scope.

(** [int] on text raises nothing but [ValueError]. *)
Lemma py_int_raises (text : str) (e : exn) :
  py_int text = Raise e -> e = ValueError.
Proof.
  unfold py_int.
  destruct (take_sign _) as [neg s].
  destruct (starts_with _ s); [congruence|].
  destruct (scan_int false s) as [[ds rest]|]; [|congruence].
  destruct (Nat.ltb _ _); [congruence|].
  destruct ds; [congruence|].
  destruct (skip_space rest); congruence.
Qed.

(** [float] on text raises nothing but [ValueError]. *)
Lemma py_float_raises (text : str) (e : exn) :
  py_float text = Raise e -> e = ValueError.
Proof.
  unfold py_float.
  destruct (remove_underscores _ _) as [s|]; [|congruence].
  destruct (strtod _) as [[f rest]|].
  - destruct (skip_space rest); congruence.
  - destruct (parse_inf_or_nan _) as [[f rest]|]; [|congruence].
    destruct (skip_space rest); congruence.
Qed.

Lemma to_ascii_symbols (s : str) :
  Forall (fun c => In c symbols) s -> to_ascii s = s.
Proof.
  induction 1 as [|c s Hc _ IH]; [reflexivity|].
  simpl. rewrite IH.
  repeat (destruct Hc as [<-|Hc]; [reflexivity|]). contradiction.
Qed.

Lemma remove_underscores_symbols (prev : char) (s : str) :
  prev <> 0x5f -> Forall (fun c => In c symbols) s ->
  remove_underscores prev s = Some s.
Proof.
  intros Hprev Hs. revert prev Hprev.
  induction Hs as [|c s Hc _ IH]; intros prev Hprev; simpl.
  - apply N.eqb_neq in Hprev. now rewrite Hprev.
  - apply N.eqb_neq in Hprev. rewrite Hprev.
    assert (Hc' : c <> 0x5f).
    { repeat (destruct Hc as [<-|Hc]; [discriminate|]). contradiction. }
    rewrite IH by assumption.
    apply N.eqb_neq in Hc'. now rewrite Hc'.
Qed.

Ltac each_symbol H :=
  repeat (destruct H as [<-|H]; [|]); [..|contradiction].

(** A text made of those characters alone is no integer ... *)
Lemma py_int_symbols (s : str) :
  Forall (fun c => In c symbols) s -> py_int s = Raise ValueError.
Proof.
  intros Hs. unfold py_int. rewrite (to_ascii_symbols Hs).
  destruct Hs as [|c1 s H1 Hs]; [reflexivity|].
  destruct Hs as [|c2 s H2 Hs];
    [each_symbol H1; reflexivity|].
  each_symbol H1; each_symbol H2; reflexivity.
Qed.

(** ... and no float. *)
Lemma py_float_symbols (s : str) :
  Forall (fun c => In c symbols) s -> py_float s = Raise ValueError.
Proof.
  intros Hs. unfold py_float.
  rewrite (to_ascii_symbols Hs), (remove_underscores_symbols (prev:=0)) by
    (congruence || assumption).
  destruct Hs as [|c1 s H1 Hs]; [reflexivity|].
  destruct Hs as [|c2 s H2 Hs];
    [each_symbol H1; reflexivity|].
  destruct Hs as [|c3 s H3 Hs];
    [each_symbol H1; each_symbol H2; reflexivity|].
  each_symbol H1; each_symbol H2; each_symbol H3; reflexivity.
Qed.

End BuiltinFacts.

(** ** Dicts *)

Module DictFacts.
Import Text TextFacts Dict.

Section WithValues.
Variable V : Type.
Implicit Types (d : dict V) (k : str) (v : V).

Lemma get_set_same d k v : get (set d k v) k = Some v.
Proof.
  induction d as [|[k' v'] d IH]; simpl.
  - now rewrite str_eqb_refl.
  - destruct (str_eqb k' k) eqn:E; simpl; now rewrite E.
Qed.

Lemma get_set_other d k k' v : k <> k' -> get (set d k v) k' = get d k'.
Proof.
  intros Hk. induction d as [|[k0 v0] d IH]; simpl.
  - apply str_eqb_neq in Hk. now rewrite Hk.
  - destruct (str_eqb_spec k0 k) as [->|Hk0]; simpl.
    + apply str_eqb_neq in Hk. now rewrite Hk.
    + now rewrite IH.
Qed.

Lemma get_None d k : get d k = None <-> ~ In k (keys d).
Proof.
  induction d as [|[k' v'] d IH]; simpl; [tauto|].
  destruct (str_eqb_spec k' k) as [->|Hk].
  - split; [discriminate|tauto].
  - rewrite IH. tauto.
Qed.

Lemma get_Some_In d k v : get d k = Some v -> In (k, v) d.
Proof.
  induction d as [|[k' v'] d IH]; simpl; [discriminate|].
  destruct (str_eqb_spec k' k) as [->|Hk].
  - intros [= ->]. now left.
  - intros H. right. now apply IH.
Qed.

Lemma In_get_Some d k v : NoDup (keys d) -> In (k, v) d -> get d k = Some v.
Proof.
  induction d as [|[k' v'] d IH]; simpl; [contradiction|].
  intros Hnd Hin. inversion Hnd as [|? ? Hk' Hnd']; subst.
  destruct Hin as [[= -> ->]|Hin].
  - now rewrite str_eqb_refl.
  - destruct (str_eqb_spec k' k) as [->|Hk]; [|now apply IH].
    exfalso. apply Hk'. change k with (fst (k, v)). now apply in_map.
Qed.

(** A key that is not there is added at the end, a key that is there
    keeps the order of the keys. *)
Lemma set_new d k v : ~ In k (keys d) -> set d k v = d ++ [(k, v)].
Proof.
  induction d as [|[k' v'] d IH]; simpl; [reflexivity|].
  intros Hk. destruct (str_eqb_spec k' k) as [->|_]; [tauto|].
  rewrite IH; tauto.
Qed.

Lemma keys_set_old d k v : In k (keys d) -> keys (set d k v) = keys d.
Proof.
  induction d as [|[k' v'] d IH]; simpl; [contradiction|].
  destruct (str_eqb_spec k' k) as [->|Hk]; [reflexivity|].
  intros [H|H]; [congruence|]. simpl. f_equal. now apply IH.
Qed.

Lemma in_keys_set d k v k' :
  In k' (keys (set d k v)) <-> k' = k \/ In k' (keys d).
Proof.
  destruct (in_dec (list_eq_dec N.eq_dec) k (keys d)) as [Hin|Hnin].
  - rewrite keys_set_old by assumption. split; [tauto|].
    intros [->|H]; assumption.
  - rewrite set_new by assumption. unfold keys. rewrite map_app, in_app_iff.
    simpl. intuition congruence.
Qed.

Lemma NoDup_keys_set d k v : NoDup (keys d) -> NoDup (keys (set d k v)).
Proof.
  intros Hnd.
  destruct (in_dec (list_eq_dec N.eq_dec) k (keys d)) as [Hin|Hnin].
  - now rewrite keys_set_old.
  - rewrite set_new by assumption. unfold keys. rewrite map_app. simpl.
    apply NoDup_app; [assumption|repeat constructor; auto|].
    intros x Hx [<-|[]]. contradiction.
Qed.

(** In a dict every key occurs once. *)
Lemma NoDup_keys_display (entries : list (str * V)) :
  NoDup (keys (display entries)).
Proof.
  unfold display.
  assert (H : forall d, NoDup (keys d) ->
            NoDup (keys (fold_left (fun d kv => set d (fst kv) (snd kv))
                           entries d))).
  { induction entries as [|kv es IH]; intros d Hd; simpl; [assumption|].
    apply IH. now apply NoDup_keys_set. }
  apply H. constructor.
Qed.

End WithValues.

End DictFacts.

(** ** The field mapping table *)

Module TableFacts.
Import Text TextFacts DictFacts.

Lemma mem_In (k : str) (l : list str) : mem k l = true <-> In k l.
Proof.
  induction l as [|k' l IH]; simpl; [split; [discriminate|tauto]|].
  rewrite orb_true_iff, IH, str_eqb_eq. tauto.
Qed.

Lemma distinct_NoDup (l : list str) : distinct l = true -> NoDup l.
Proof.
  induction l as [|k l IH]; simpl; [constructor|].
  intros H. apply andb_prop in H as [Hk Hl]. constructor; [|now apply IH].
  rewrite <- mem_In. now destruct (mem k l).
Qed.

Lemma FIELD_MAPPING_keys : NoDup (Dict.keys FIELD_MAPPING).
Proof. apply NoDup_keys_display. Qed.

(** The display of the table has no key twice: all 95 entries are in. *)
Lemma FIELD_MAPPING_length : List.length FIELD_MAPPING = 95%nat.
Proof. vm_compute. reflexivity. Qed.

(** No canonical key is the target of two old names. *)
Lemma canonical_keys_distinct : NoDup canonical_keys.
Proof. apply distinct_NoDup. vm_compute. reflexivity. Qed.

Lemma FIELD_MAPPING_injective (k1 k2 c : str) :
  In (k1, c) FIELD_MAPPING -> In (k2, c) FIELD_MAPPING -> k1 = k2.
Proof.
  pose proof canonical_keys_distinct as Hnd. unfold canonical_keys in Hnd.
  induction FIELD_MAPPING as [|[k0 c0] t IH]; simpl; [contradiction|].
  simpl in Hnd. inversion Hnd as [|? ? Hc0 Hnd']; subst.
  intros [[= -> ->]|H1] [[= ->]|H2]; auto.
  - exfalso. apply Hc0. change c with (snd (k2, c)). now apply in_map.
  - subst c0. exfalso. apply Hc0. change c with (snd (k1, c)).
    now apply in_map.
Qed.

Lemma new_field_mapped (k c : str) :
  In (k, c) FIELD_MAPPING -> new_field k = c.
Proof.
  intros H. unfold new_field, Dict.get_default.
  now rewrite (In_get_Some FIELD_MAPPING k c FIELD_MAPPING_keys H).
Qed.

Lemma new_field_unmapped (k : str) :
  ~ In k (Dict.keys FIELD_MAPPING) -> new_field k = k.
Proof.
  intros H. unfold new_field, Dict.get_default.
  apply get_None in H. now rewrite H.
Qed.

Lemma new_field_cases (k : str) :
  In (k, new_field k) FIELD_MAPPING \/
  (~ In k (Dict.keys FIELD_MAPPING) /\ new_field k = k).
Proof.
  unfold new_field, Dict.get_default.
  destruct (Dict.get FIELD_MAPPING k) as [c|] eqn:E.
  - left. now apply get_Some_In.
  - right. split; [now apply get_None|reflexivity].
Qed.

(** Every canonical key is mapped to itself: it is either no old name or an
    old name that is kept. *)
Lemma canonical_keys_fixed (c : str) :
  In c canonical_keys -> new_field c = c.
Proof.
  assert (H : forallb (fun c => str_eqb (new_field c) c) canonical_keys
              = true) by (vm_compute; reflexivity).
  rewrite forallb_forall in H. intros Hc. now apply str_eqb_eq, H.
Qed.

Lemma new_field_idempotent (k : str) : new_field (new_field k) = new_field k.
Proof.
  destruct (new_field_cases k) as [H|[_ H]].
  - apply canonical_keys_fixed. unfold canonical_keys.
    change (new_field k) with (snd (k, new_field k)). now apply in_map.
  - now rewrite H.
Qed.

(** At most two keys are given the same new name: that name itself and the
    one old name the table maps to it. *)
Lemma new_field_two_sources (k1 k2 k3 : str) :
  new_field k1 = new_field k2 -> new_field k2 = new_field k3 ->
  k1 = k2 \/ k1 = k3 \/ k2 = k3.
Proof.
  intros H12 H23.
  destruct (new_field_cases k1) as [M1|[_ U1]],
           (new_field_cases k2) as [M2|[_ U2]],
           (new_field_cases k3) as [M3|[_ U3]].
  all: try (left; rewrite H12 in M1;
            exact (FIELD_MAPPING_injective M1 M2)).
  all: try (right; right; rewrite H23 in M2;
            exact (FIELD_MAPPING_injective M2 M3)).
  all: try (right; left; rewrite H12, H23 in M1;
            exact (FIELD_MAPPING_injective M1 M3)).
  all: try (left; congruence).
  all: try (right; right; congruence).
  all: right; left; congruence.
Qed.

End TableFacts.

(** ** The coercion of one value *)

Module CoercionFacts.
Import Text TextFacts Builtins BuiltinFacts.

Lemma convert_raises (s : str) (e : exn) :
  convert s = Raise e -> e = ValueError.
Proof.
  unfold convert.
  destruct (_ || _); [|destruct (contains _ s)].
  - destruct (py_float s) eqn:E; simpl; [discriminate|].
    intros [= <-]. eapply py_float_raises, E.
  - destruct (py_float s) eqn:E; simpl; [discriminate|].
    intros [= <-]. eapply py_float_raises, E.
  - destruct (py_int s) eqn:E; simpl; [discriminate|].
    intros [= <-]. eapply py_int_raises, E.
Qed.

Lemma convert_number (s : str) (v : jvalue) :
  convert s = Ok v -> (exists z, v = VInt z) \/ (exists f, v = VFloat f).
Proof.
  unfold convert.
  destruct (_ || _); [|destruct (contains _ s)].
  - destruct (py_float s); simpl; [|discriminate]. intros [= <-]. eauto.
  - destruct (py_float s); simpl; [|discriminate]. intros [= <-]. eauto.
  - destruct (py_int s); simpl; [|discriminate]. intros [= <-]. eauto.
Qed.

(** The coercion returns: the exception of a failed conversion is caught. *)
Lemma numeric_coercion_Ok (value : jvalue) :
  numeric_coercion value = Ok (coerced value).
Proof.
  unfold coerced. destruct value; try reflexivity. simpl.
  destruct (purely_numeric s); [|reflexivity].
  destruct (convert s) as [v|e] eqn:E; [reflexivity|].
  apply convert_raises in E. subst e. reflexivity.
Qed.

Lemma coerced_not_text (value : jvalue) :
  (forall s, value <> VStr s) -> coerced value = value.
Proof. intros H. destruct value; try reflexivity. now elim (H s). Qed.

(** A text is either kept or replaced by a number. *)
Lemma coerced_text (s : str) :
  coerced (VStr s) = VStr s \/
  (exists z, coerced (VStr s) = VInt z) \/
  (exists f, coerced (VStr s) = VFloat f).
Proof.
  unfold coerced. simpl.
  destruct (purely_numeric s); [|now left].
  destruct (convert s) as [v|e] eqn:E.
  - apply convert_number in E as [[z ->]|[f ->]]; simpl; eauto.
  - apply convert_raises in E. subst e. now left.
Qed.

Lemma coerced_idempotent (value : jvalue) :
  coerced (coerced value) = coerced value.
Proof.
  destruct value; try reflexivity.
  destruct (coerced_text s) as [H|[[z H]|[f H]]]; rewrite H; try reflexivity.
  exact H.
Qed.

End CoercionFacts.

(** ** The transform of one record *)

Module RecordFacts.
Import Text TextFacts Dict DictFacts TableFacts CoercionFacts.

Lemma items_loop_Ok (items : list (str * jvalue)) (new_record : jrecord) :
  items_loop items new_record = Ok (fold_left step items new_record).
Proof.
  revert new_record. induction items as [|[k v] items IH]; intros d; simpl.
  - reflexivity.
  - rewrite numeric_coercion_Ok. simpl. apply IH.
Qed.

Lemma standardize_record_Ok (record : jrecord) :
  standardize_record record = Ok (renamed record).
Proof. apply items_loop_Ok. Qed.

Lemma in_keys_fold (items : list (str * jvalue)) (d : jrecord) (k' : str) :
  In k' (keys (fold_left step items d)) <->
  In k' (keys d) \/ exists item, In item items /\ new_field (fst item) = k'.
Proof.
  revert d. induction items as [|item items IH]; intros d; simpl.
  - split; [tauto|]. intros [H|[item [[] _]]]. exact H.
  - rewrite IH. unfold step. rewrite in_keys_set. split.
    + intros [[->|H]|[it [Hit Hk]]]; eauto.
    + intros [H|[it [[<-|Hit] Hk]]]; eauto.
Qed.

Lemma NoDup_keys_fold (items : list (str * jvalue)) (d : jrecord) :
  NoDup (keys d) -> NoDup (keys (fold_left step items d)).
Proof.
  revert d. induction items as [|item items IH]; intros d Hd; simpl; auto.
  apply IH. now apply NoDup_keys_set.
Qed.

Lemma NoDup_keys_renamed (record : jrecord) : NoDup (keys (renamed record)).
Proof. apply NoDup_keys_fold. constructor. Qed.

(** Items that are given other names leave the entry of [c] alone. *)
Lemma get_fold_untouched (items : list (str * jvalue)) (d : jrecord)
    (c : str) :
  (forall item, In item items -> new_field (fst item) <> c) ->
  get (fold_left step items d) c = get d c.
Proof.
  revert d. induction items as [|item items IH]; intros d H; simpl; auto.
  rewrite IH by (intros it Hit; apply H; now right).
  unfold step. apply get_set_other. apply H. now left.
Qed.

(** The entry of a new name holds the value of the last item that is given
    this name. *)
Lemma get_fold_last (pre post : list (str * jvalue)) (k : str) (v : jvalue)
    (d : jrecord) :
  (forall item, In item post -> new_field (fst item) <> new_field k) ->
  get (fold_left step (pre ++ (k, v) :: post) d) (new_field k)
  = Some (coerced v).
Proof.
  intros H. rewrite fold_left_app. simpl.
  rewrite get_fold_untouched by assumption.
  unfold step at 1. simpl. apply get_set_same.
Qed.

Lemma in_set (d : jrecord) (k k' : str) (v v' : jvalue) :
  In (k', v') (set d k v) -> (k' = k /\ v' = v) \/ In (k', v') d.
Proof.
  induction d as [|[k0 v0] d IH]; simpl.
  - intros [[= <- <-]|[]]. now left.
  - destruct (str_eqb_spec k0 k) as [->|_]; simpl.
    + intros [[= <- <-]|H]; auto.
    + intros [H|H]; auto. apply IH in H. tauto.
Qed.

(** Every entry of the new record is the new name and the stored value of
    an item. *)
Lemma in_fold (items : list (str * jvalue)) (d : jrecord) (k' : str)
    (v' : jvalue) :
  In (k', v') (fold_left step items d) ->
  In (k', v') d \/
  exists item, In item items /\ k' = new_field (fst item)
               /\ v' = coerced (snd item).
Proof.
  revert d. induction items as [|item items IH]; intros d; simpl; auto.
  intros H. apply IH in H as [H|[it [Hit Hk]]].
  - apply in_set in H as [[-> ->]|H]; [right|now left].
    exists item. simpl. auto.
  - right. exists it. split; [now right|assumption].
Qed.

(** Items with distinct names that the table leaves alone and values that
    the coercion leaves alone are copied one by one. *)
Lemma fold_copy (items : list (str * jvalue)) (d : jrecord) :
  NoDup (keys (d ++ items)) ->
  (forall item, In item items ->
     new_field (fst item) = fst item /\ coerced (snd item) = snd item) ->
  fold_left step items d = d ++ items.
Proof.
  revert d. induction items as [|[k v] items IH]; intros d Hnd H; simpl.
  - now rewrite app_nil_r.
  - destruct (H (k, v) (or_introl eq_refl)) as [Hk Hv]. simpl in Hk, Hv.
    unfold step at 2. simpl. rewrite Hk, Hv.
    assert (Hnew : ~ In k (keys d)).
    { unfold keys in *. rewrite map_app in Hnd. simpl in Hnd.
      apply NoDup_remove_2 in Hnd. rewrite in_app_iff in Hnd. tauto. }
    rewrite set_new by exact Hnew.
    rewrite IH.
    + now rewrite <- app_assoc.
    + now rewrite <- app_assoc.
    + intros it Hit. apply H. now right.
Qed.

End RecordFacts.

(** ** The guard *)

Module GuardFacts.
Import Text TextFacts Builtins BuiltinFacts.

Local Open Scope N_scope.

(** Replacing a single character by nothing filters it out. *)
Lemma replace_char_filter (a : char) (s : str) :
  replace [a] [] s = filter (fun c => negb (c =? a)) s.
Proof.
  unfold replace. induction s as [|c s IH]; [reflexivity|].
  simpl. rewrite (N.eqb_sym c a).
  destruct (a =? c); simpl; [|f_equal]; exact IH.
Qed.

(** What the guard removes are symbols only: a text of which nothing is
    left was made of symbols. *)
Lemma stripped_nil_symbols (s : str) :
  stripped s = [] -> Forall (fun c => In c symbols) s.
Proof.
  intros H. apply Forall_forall. intros c Hc.
  destruct (in_dec N.eq_dec c symbols) as [Hin|Hnin]; [assumption|].
  exfalso.
  assert (Hs : In c (stripped s)).
  { unfold stripped, symbols in *. simpl in Hnin.
    repeat apply replace_keeps; try discriminate; try assumption.
    all: simpl; intuition congruence. }
  rewrite H in Hs. contradiction.
Qed.

Lemma stripped_subset (s : str) (c : char) : In c (stripped s) -> In c s.
Proof.
  unfold stripped, replace. simpl. intros H.
  repeat apply replace_from_subset in H. exact H.
Qed.

(** In a text without ['+'] only the ['.'] and the ['-'] are removed. *)
Lemma stripped_without_plus (s : str) :
  ~ In 0x2b s -> stripped s = replace (lit "-") [] (replace (lit ".") [] s).
Proof.
  intros Hplus. unfold stripped.
  assert (H : ~ In 0x2b (replace (lit "-") [] (replace (lit ".") [] s))).
  { intros Hin. apply Hplus. unfold replace in Hin. simpl in Hin.
    repeat apply replace_from_subset in Hin. exact Hin. }
  rewrite (@replace_pair_absent 0x45 0x2b [] _ H
           : replace (lit "E+") [] _ = _).
  exact (@replace_pair_absent 0x65 0x2b [] _ H).
Qed.

(** A text of symbols alone is not converted. *)
Lemma convert_symbols (s : str) :
  Forall (fun c => In c symbols) s -> convert s = Raise ValueError.
Proof.
  intros H. unfold convert.
  rewrite (py_float_symbols H), (py_int_symbols H).
  destruct (_ || _); [|destruct (contains _ s)]; reflexivity.
Qed.

Lemma contains_In (a : char) (sub s : str) :
  contains (a :: sub) s = true -> In a s.
Proof.
  induction s as [|c s IH]; simpl; [discriminate|].
  intros H. apply orb_prop in H as [H|H].
  - apply andb_prop in H as [H _]. apply N.eqb_eq in H. now left.
  - right. now apply IH.
Qed.

(** A character that is no digit and is not removed makes the guard
    fail. *)
Lemma purely_numeric_rejects (s : str) (c : char) :
  In c (stripped s) -> Unicode.isdigit c = false -> purely_numeric s = false.
Proof.
  intros Hin Hc. unfold purely_numeric.
  destruct (py_isdigit (stripped s)) eqn:E; [|reflexivity].
  pose proof (py_isdigit_all _ _ E Hin). congruence.
Qed.

End GuardFacts.

(** ** The examples of the specification, section 8 *)

Example mapping_correctness :
  standardize_record
    [(lit "LOC_ID", VStr (lit "ABC")); (lit "Airport", VStr (lit "Test Field"))]
  = Ok [(lit "locId", VStr (lit "ABC"));
        (lit "airportName", VStr (lit "Test Field"))].
Proof. vm_compute. reflexivity. Qed.

Example unmapped_passthrough :
  standardize_record [(lit "customField", VInt 5)]
  = Ok [(lit "customField", VInt 5)].
Proof. vm_compute. reflexivity. Qed.

Example collision_handling :
  standardize_record
    [(lit "locId", VStr (lit "first")); (lit "City", VNone);
     (lit "LOC_ID", VStr (lit "second"))]
  = Ok [(lit "locId", VStr (lit "second")); (lit "city", VNone)].
Proof. vm_compute. reflexivity. Qed.

Example progress_lines :
  fst (standardize_json_fields (lit "in") (lit "out") [[]; []])
  = [LoadingDataFrom (lit "in"); ProcessingRecords 2; ProcessingRecord 1;
     WritingTo (lit "out"); Complete; SummaryHeader; TotalFieldsMapped 95;
     RecordsProcessed 2].
Proof. vm_compute. reflexivity. Qed.

(** * The claims *)

Import TextFacts BuiltinFacts DictFacts TableFacts CoercionFacts RecordFacts
  GuardFacts.

Lemma spec_remaining_stripped (s : str) : spec_remaining s = stripped s.
Proof.
  unfold spec_remaining, stripped, remove_char.
  now rewrite <- !replace_char_filter.
Qed.

Lemma spec_parse_convert (s : str) : spec_parse s = convert s.
Proof.
  unfold spec_parse, convert, bind.
  destruct (_ || _); [|destruct (contains _ s)]; reflexivity.
Qed.

(** C1: the stored value of every record field value is the one section 4.2
    of the specification describes: a value that is not text is returned
    unchanged; a text is coerced only when what remains of it, after the
    ['.'], the ['-'] and the substrings ["E+"] and ["e+"] are removed,
    consists of digit characters only; it is then parsed as a float if it
    contains ["E+"] or ["e+"], else as a float if it contains ['.'], else as
    an integer. *)
Theorem C1_numeric_coercion_as_specified (value : jvalue) :
  numeric_coercion value = Ok (spec_numeric_coercion value).
Proof.
  destruct value; try reflexivity.
  unfold numeric_coercion, spec_numeric_coercion, spec_purely_numeric,
    purely_numeric.
  rewrite spec_remaining_stripped.
  replace (spec_parse s) with (convert s)
    by (symmetry; apply spec_parse_convert).
  destruct (stripped s) as [|c r] eqn:E.
  - simpl. apply stripped_nil_symbols in E.
    now rewrite (convert_symbols E).
  - change (py_isdigit (c :: r)) with (forallb Unicode.isdigit (c :: r)).
    destruct (forallb Unicode.isdigit (c :: r)); [|reflexivity].
    destruct (convert s) as [v|e] eqn:Ec; [reflexivity|].
    apply convert_raises in Ec. subst e. reflexivity.
Qed.

(** C2: for every input key the output key is the canonical key of the
    Field Mapping Table when the table has the input key, and the input key
    itself otherwise; one of the two cases always applies, so the lookup
    has a result for every key. *)
Theorem C2_field_lookup (old_field : str) :
  (forall canonical, In (old_field, canonical) FIELD_MAPPING ->
     new_field old_field = canonical) /\
  (~ In old_field (Dict.keys FIELD_MAPPING) ->
     new_field old_field = old_field) /\
  (In (old_field, new_field old_field) FIELD_MAPPING \/
   ~ In old_field (Dict.keys FIELD_MAPPING)).
Proof.
  split; [|split].
  - intros canonical. apply new_field_mapped.
  - apply new_field_unmapped.
  - destruct (new_field_cases old_field) as [H|[H _]]; auto.
Qed.

Lemma C2_field_lookup_witness :
  new_field (lit "LOC_ID") = lit "locId" /\
  new_field (lit "customField") = lit "customField".
Proof.
  split.
  - apply (proj1 (C2_field_lookup (lit "LOC_ID"))).
    vm_compute. left. reflexivity.
  - apply (proj1 (proj2 (C2_field_lookup (lit "customField")))).
    apply get_None. vm_compute. reflexivity.
Defined.

Lemma filter_key (d : jrecord) (c : str) (v : jvalue) :
  NoDup (Dict.keys d) -> Dict.get d c = Some v ->
  filter (fun item => str_eqb (fst item) c) d = [(c, v)].
Proof.
  induction d as [|[k0 v0] d IH]; simpl; [discriminate|].
  intros Hnd Hget. inversion Hnd as [|? ? Hk0 Hnd']; subst.
  destruct (str_eqb_spec k0 c) as [->|Hk].
  - injection Hget as ->. f_equal.
    apply (proj2 (get_None d c)) in Hk0.
    clear - Hk0. induction d as [|[k1 v1] d IH]; simpl in *; [reflexivity|].
    destruct (str_eqb k1 c); [discriminate|]. now apply IH.
  - now apply IH.
Qed.

(** C3: when two distinct keys of an input record are given the same
    canonical key, the transformed record has exactly one entry for that
    canonical key, and its value is the stored (possibly coerced) value of
    the key that comes later in the iteration order of the input record. *)
Theorem C3_later_key_overwrites
    (before between after : list (str * jvalue)) (k1 k2 : str)
    (v1 v2 : jvalue) :
  NoDup (Dict.keys (before ++ (k1, v1) :: between ++ (k2, v2) :: after)) ->
  new_field k1 = new_field k2 ->
  exists new_record stored,
    standardize_record (before ++ (k1, v1) :: between ++ (k2, v2) :: after)
    = Ok new_record /\
    numeric_coercion v2 = Ok stored /\
    filter (fun item => str_eqb (fst item) (new_field k2)) new_record
    = [(new_field k2, stored)].
Proof.
  intros Hnd Hsame.
  set (record := before ++ (k1, v1) :: between ++ (k2, v2) :: after) in *.
  exists (renamed record), (coerced v2).
  split; [apply standardize_record_Ok|].
  split; [apply numeric_coercion_Ok|].
  apply filter_key; [apply NoDup_keys_renamed|].
  unfold renamed, record.
  replace (before ++ (k1, v1) :: between ++ (k2, v2) :: after)
    with ((before ++ (k1, v1) :: between) ++ (k2, v2) :: after)
    by (now rewrite <- app_assoc).
  apply get_fold_last.
  intros [k3 v3] Hin Hk3. simpl in Hk3.
  unfold record, Dict.keys in Hnd.
  rewrite map_app in Hnd. apply NoDup_app_remove_l in Hnd.
  simpl in Hnd. rewrite map_app in Hnd. simpl in Hnd.
  assert (H3 : In k3 (List.map fst after))
    by (change k3 with (fst (k3, v3)); now apply in_map).
  assert (H12 : k1 <> k2).
  { inversion Hnd as [|? ? Hk1 _]; subst. intros ->. apply Hk1.
    apply in_or_app. right. now left. }
  assert (H13 : k1 <> k3).
  { inversion Hnd as [|? ? Hk1 _]; subst. intros ->. apply Hk1.
    apply in_or_app. right. now right. }
  assert (H23 : k2 <> k3).
  { inversion Hnd as [|? ? _ Hnd']; subst.
    apply NoDup_app_remove_l in Hnd'.
    inversion Hnd' as [|? ? Hk2 _]; subst. intros ->. now apply Hk2. }
  destruct (@new_field_two_sources k1 k2 k3) as [H|[H|H]]; congruence.
Qed.

Lemma C3_later_key_overwrites_witness :
  exists new_record stored,
    standardize_record
      [(lit "Airport", VStr (lit "old")); (lit "LOC_ID", VStr (lit "7"));
       (lit "locId", VStr (lit "8")); (lit "City", VNone)]
    = Ok new_record /\
    numeric_coercion (VStr (lit "8")) = Ok stored /\
    filter (fun item => str_eqb (fst item) (new_field (lit "locId")))
      new_record
    = [(new_field (lit "locId"), stored)].
Proof.
  apply (@C3_later_key_overwrites
           [(lit "Airport", VStr (lit "old"))] [] [(lit "City", VNone)]
           (lit "LOC_ID") (lit "locId")
           (VStr (lit "7")) (VStr (lit "8"))).
  - apply distinct_NoDup. vm_compute. reflexivity.
  - vm_compute. reflexivity.
Defined.

Lemma records_loop_Ok (data : list jrecord) (i : nat)
    (standardized_data : list jrecord) (stdout : list printed) :
  snd (records_loop i data standardized_data stdout)
  = Ok (standardized_data ++ List.map renamed data).
Proof.
  revert i standardized_data stdout.
  induction data as [|record data IH]; intros i acc out; simpl.
  - now rewrite app_nil_r.
  - rewrite standardize_record_Ok, IH, <- app_assoc. reflexivity.
Qed.

Lemma standardize_json_fields_Ok (input_file output_file : str)
    (data : list jrecord) :
  snd (standardize_json_fields input_file output_file data)
  = Ok (List.map renamed data).
Proof.
  unfold standardize_json_fields.
  pose proof (records_loop_Ok data 0 []
                [LoadingDataFrom input_file;
                 ProcessingRecords (List.length data)]) as H.
  destruct (records_loop _ _ _ _) as [out [sd|e]]; simpl in *; exact H.
Qed.

(** C4: for every input collection the output collection has the length of
    the input, and the record at each position of the output is the
    transform of the record at that position of the input; that transform is
    the same wherever the record stands, in this or in another collection. *)
Theorem C4_collection_transform (input_file output_file : str)
    (data : list jrecord) :
  exists standardized_data,
    snd (standardize_json_fields input_file output_file data)
    = Ok standardized_data /\
    List.length standardized_data = List.length data /\
    (forall i record, nth_error data i = Some record ->
       exists new_record,
         nth_error standardized_data i = Some new_record /\
         standardize_record record = Ok new_record) /\
    (forall input_file' output_file' data' standardized_data' i j record,
       snd (standardize_json_fields input_file' output_file' data')
       = Ok standardized_data' ->
       nth_error data i = Some record -> nth_error data' j = Some record ->
       nth_error standardized_data' j = nth_error standardized_data i).
Proof.
  exists (List.map renamed data).
  split; [apply standardize_json_fields_Ok|].
  split; [apply length_map|].
  split.
  - intros i record Hi. exists (renamed record).
    split; [|apply standardize_record_Ok].
    now rewrite nth_error_map, Hi.
  - intros f' o' data' sd' i j record Hrun Hi Hj.
    rewrite standardize_json_fields_Ok in Hrun. injection Hrun as <-.
    now rewrite !nth_error_map, Hi, Hj.
Qed.

Lemma C4_collection_transform_witness :
  exists standardized_data,
    snd (standardize_json_fields (lit "in.json") (lit "out.json")
           [[(lit "LOC_ID", VStr (lit "ABC"))];
            [(lit "pfc", VStr (lit "12"))]])
    = Ok standardized_data /\
    nth_error standardized_data 1
    = Some [(lit "passengerFacilityCharges", VInt 12)].
Proof.
  destruct (C4_collection_transform (lit "in.json") (lit "out.json")
              [[(lit "LOC_ID", VStr (lit "ABC"))];
               [(lit "pfc", VStr (lit "12"))]])
    as [sd [Hrun [_ [Hnth _]]]].
  exists sd. split; [exact Hrun|].
  destruct (Hnth 1%nat [(lit "pfc", VStr (lit "12"))] eq_refl)
    as [new_record [Hsd Hrec]].
  rewrite Hsd. f_equal.
  assert (E : standardize_record [(lit "pfc", VStr (lit "12"))]
              = Ok [(lit "passengerFacilityCharges", VInt 12)])
    by (vm_compute; reflexivity).
  rewrite E in Hrec. now injection Hrec.
Defined.

(** C5: the coercion returns for every input value, it raises nothing; and
    for every text that passes the purely-numeric guard and whose conversion
    raises a [ValueError] or a [TypeError], it returns the original text
    unchanged. *)
Theorem C5_coercion_never_raises (value : jvalue) :
  (exists stored, numeric_coercion value = Ok stored) /\
  (forall s e,
     value = VStr s -> purely_numeric s = true -> convert s = Raise e ->
     e = ValueError \/ e = TypeError ->
     numeric_coercion value = Ok value).
Proof.
  split.
  - exists (coerced value). apply numeric_coercion_Ok.
  - intros s e -> Hguard Hraise He. simpl. rewrite Hguard, Hraise.
    destruct He as [-> | ->]; reflexivity.
Qed.

Lemma C5_coercion_never_raises_witness :
  numeric_coercion (VStr (lit "1.2.3")) = Ok (VStr (lit "1.2.3")).
Proof.
  apply (proj2 (C5_coercion_never_raises (VStr (lit "1.2.3")))
           (lit "1.2.3") ValueError).
  - reflexivity.
  - vm_compute. reflexivity.
  - vm_compute. reflexivity.
  - left. reflexivity.
Defined.

Lemma starts_with_before (old u w : str) (x : char) :
  ~ In x old -> starts_with old (u ++ x :: w) = true ->
  starts_with old u = true.
Proof.
  revert u. induction old as [|o old IH]; intros u Hx; [reflexivity|].
  destruct u as [|c u]; simpl.
  - intros H. apply andb_prop in H as [H _]. apply N.eqb_eq in H.
    elim Hx. now left.
  - intros H. apply andb_prop in H as [H1 H2]. rewrite H1. simpl.
    apply IH; [|exact H2]. intros Hin. apply Hx. now right.
Qed.

Lemma starts_with_extend (old u w : str) :
  starts_with old u = true -> starts_with old (u ++ w) = true.
Proof.
  intros H. apply starts_with_split in H. rewrite H, <- app_assoc.
  apply starts_with_app.
Qed.

(** A character that does not occur in [old] is in no occurrence of [old]:
    the text before it and the text after it are replaced apart. *)
Lemma replace_split (old new u w : str) (x : char) :
  old <> [] -> ~ In x old ->
  replace old new (u ++ x :: w)
  = replace old new u ++ x :: replace old new w.
Proof.
  intros Hold Hx. destruct old as [|o old'] eqn:Eold; [congruence|].
  rewrite <- Eold in *. unfold replace. rewrite Eold. rewrite <- Eold.
  clear Eold o old'.
  remember (List.length u) as n eqn:Hn. revert u Hn.
  induction n as [n IH] using lt_wf_ind. intros u Hn.
  destruct u as [|c u].
  - simpl app. rewrite replace_from_nomatch; [reflexivity|].
    destruct old as [|o old']; [congruence|]. simpl.
    destruct (N.eqb_spec o x) as [->|_]; [|reflexivity].
    elim Hx. now left.
  - destruct (starts_with old ((c :: u) ++ x :: w)) eqn:Hm.
    + pose proof (@starts_with_before old (c :: u) w x Hx Hm) as Hu.
      pose proof (@starts_with_split old (c :: u) Hu) as Hsplit.
      set (r := skipn (List.length old) (c :: u)) in *.
      assert (Hlen : (List.length r < n)%nat).
      { subst n. apply (f_equal (@List.length char)) in Hsplit.
        rewrite length_app in Hsplit.
        destruct old; [congruence|]. simpl in *. lia. }
      rewrite Hsplit, <- app_assoc, !replace_from_match by assumption.
      rewrite (IH (List.length r) Hlen r eq_refl). now rewrite app_assoc.
    + assert (Hu : starts_with old (c :: u) = false).
      { destruct (starts_with old (c :: u)) eqn:E; [|reflexivity].
        apply starts_with_extend with (w := x :: w) in E. congruence. }
      change ((c :: u) ++ x :: w) with (c :: (u ++ x :: w)) in *.
      rewrite !replace_from_nomatch by assumption.
      rewrite (IH (List.length u)); [reflexivity| |reflexivity].
      subst n. simpl. lia.
Qed.

Lemma replace_cons (old new w : str) (x : char) :
  old <> [] -> ~ In x old ->
  replace old new (x :: w) = x :: replace old new w.
Proof.
  intros Hold Hx.
  rewrite (@replace_split old new [] w x Hold Hx
           : replace old new (x :: w) = _).
  destruct old; [congruence|reflexivity].
Qed.

Lemma replace_char_head (a : char) (w : str) :
  replace [a] [] (a :: w) = replace [a] [] w.
Proof.
  unfold replace. exact (@replace_from_match [a] [] w ltac:(discriminate)).
Qed.

(** The first character of a two-character [old] stays where the character
    after it is not the second one. *)
Lemma replace_pair_first_stays (a b y : char) (u w : str) :
  a <> b -> y <> b -> In a (replace [a; b] [] (u ++ a :: y :: w)).
Proof.
  intros Hab Hyb. unfold replace.
  remember (List.length u) as n eqn:Hn. revert u Hn.
  induction n as [n IH] using lt_wf_ind. intros u Hn.
  destruct u as [|c u].
  - simpl app. rewrite replace_from_nomatch; [now left|].
    simpl. rewrite N.eqb_refl.
    destruct (N.eqb_spec b y) as [->|_]; [congruence|reflexivity].
  - change ((c :: u) ++ a :: y :: w) with (c :: (u ++ a :: y :: w)).
    destruct (starts_with [a; b] (c :: (u ++ a :: y :: w))) eqn:Hm.
    + destruct u as [|c2 u].
      * simpl in Hm. apply andb_prop in Hm as [_ Hm].
        apply andb_prop in Hm as [Hm _]. apply N.eqb_eq in Hm. congruence.
      * simpl in Hm. apply andb_prop in Hm as [H1 Hm].
        apply andb_prop in Hm as [H2 _].
        apply N.eqb_eq in H1, H2. subst c c2.
        change (a :: (b :: u) ++ a :: y :: w)
          with ([a; b] ++ (u ++ a :: y :: w)).
        rewrite replace_from_match by discriminate. simpl app.
        apply (IH (List.length u)); [|reflexivity]. subst n. simpl. lia.
    + rewrite replace_from_nomatch by assumption. right.
      apply (IH (List.length u)); [|reflexivity]. subst n. simpl. lia.
Qed.

Lemma isdigit_not_symbol (d : char) :
  Unicode.isdigit d = true -> ~ In d symbols.
Proof.
  intros H Hin. unfold symbols in Hin. simpl in Hin.
  repeat (destruct Hin as [<-|Hin]; [vm_compute in H; discriminate|]).
  contradiction.
Qed.

(** A text with ['e-'] and a digit after it keeps the ['e'] through all four
    removals. *)
Lemma stripped_negative_exponent (p q : str) (d : char) :
  Unicode.isdigit d = true ->
  In 0x65%N (stripped (p ++ 0x65%N :: 0x2d%N :: d :: q)).
Proof.
  intros Hd. pose proof (@isdigit_not_symbol d Hd) as Hsym.
  assert (Hdold : forall old, incl old symbols -> ~ In d old)
    by (intros old Hincl Hin; apply Hsym; now apply Hincl).
  assert (H1 : incl (lit ".") symbols)
    by (intros c Hc; vm_compute in Hc |- *; tauto).
  assert (H2 : incl (lit "-") symbols)
    by (intros c Hc; vm_compute in Hc |- *; tauto).
  assert (H3 : incl (lit "E+") symbols)
    by (intros c Hc; vm_compute in Hc |- *; tauto).
  unfold stripped.
  rewrite (@replace_split (lit ".") [] p _ 0x65%N)
    by (discriminate || (vm_compute; intuition discriminate)).
  rewrite (@replace_cons (lit ".") [] _ 0x2d%N)
    by (discriminate || (vm_compute; intuition discriminate)).
  rewrite (@replace_cons (lit ".") [] _ d) by (discriminate || auto).
  rewrite (@replace_split (lit "-") [] _ _ 0x65%N)
    by (discriminate || (vm_compute; intuition discriminate)).
  rewrite (replace_char_head 0x2d%N _
           : replace (lit "-") [] (0x2d%N :: _) = _).
  rewrite (@replace_cons (lit "-") [] _ d) by (discriminate || auto).
  rewrite (@replace_split (lit "E+") [] _ _ 0x65%N)
    by (discriminate || (vm_compute; intuition discriminate)).
  rewrite (@replace_cons (lit "E+") [] _ d) by (discriminate || auto).
  apply (@replace_pair_first_stays 0x65%N 0x2b%N d); [discriminate|].
  intros ->. apply Hsym. vm_compute. tauto.
Qed.

(** The guard refuses ["."], of which nothing is left after the removals. *)
Lemma C6_counterexample :
  stripped (lit ".") = [] /\ purely_numeric (lit ".") = false.
Proof. vm_compute. split; reflexivity. Qed.

(** C6, as the code has it: the guard accepts the malformed texts ["1.2.3"]
    and ["--5"]; it rejects every text of which nothing is left after ['.'],
    ['-'], ["E+"] and ["e+"] are removed; it rejects every text that uses a
    lowercase negative exponent, an ["e-"] with a digit after it; and it
    rejects every text with a leading ['+']. *)
Theorem C6_guard_edge_cases :
  purely_numeric (lit "1.2.3") = true /\
  purely_numeric (lit "--5") = true /\
  (forall s, stripped s = [] -> purely_numeric s = false) /\
  (forall p q d, Unicode.isdigit d = true ->
     purely_numeric (p ++ 0x65%N :: 0x2d%N :: d :: q) = false) /\
  (forall s, purely_numeric (0x2b%N :: s) = false).
Proof.
  split; [vm_compute; reflexivity|].
  split; [vm_compute; reflexivity|].
  split; [|split].
  - intros s H. unfold purely_numeric. now rewrite H.
  - intros p q d Hd.
    apply purely_numeric_rejects with (c := 0x65%N); [|reflexivity].
    now apply stripped_negative_exponent.
  - intros s. apply purely_numeric_rejects with (c := 0x2b%N);
      [|reflexivity].
    unfold stripped, replace. simpl. now left.
Qed.

Lemma C6_guard_edge_cases_witness :
  purely_numeric (lit "1.5e-10") = false /\
  purely_numeric (lit "1E+5e-3") = false /\
  purely_numeric (lit ".-") = false.
Proof.
  split; [|split].
  - apply (proj1 (proj2 (proj2 (proj2 C6_guard_edge_cases)))
             (lit "1.5") (lit "0") 0x31%N).
    vm_compute. reflexivity.
  - apply (proj1 (proj2 (proj2 (proj2 C6_guard_edge_cases)))
             (lit "1E+5") [] 0x33%N).
    vm_compute. reflexivity.
  - apply (proj1 (proj2 (proj2 C6_guard_edge_cases))).
    vm_compute. reflexivity.
Defined.

(** C7: the numeric coercion maps ["123"] to the integer 123, ["123.45"] to
    the float read from 123.45, ["1.5E+10"] to the float read from 1.5e10,
    ["-42"] to the integer -42, and leaves ["abc"] and the empty text
    unchanged. *)
Theorem C7_coercion_examples :
  numeric_coercion (VStr (lit "123")) = Ok (VInt 123) /\
  (exists f, numeric_coercion (VStr (lit "123.45")) = Ok (VFloat f) /\
             reads_as f (12345 # 100)) /\
  (exists f, numeric_coercion (VStr (lit "1.5E+10")) = Ok (VFloat f) /\
             reads_as f (15000000000 # 1)) /\
  numeric_coercion (VStr (lit "-42")) = Ok (VInt (-42)) /\
  numeric_coercion (VStr (lit "abc")) = Ok (VStr (lit "abc")) /\
  numeric_coercion (VStr []) = Ok (VStr []).
Proof.
  split; [vm_compute; reflexivity|].
  split.
  { exists (FFinite false 12345 (-2)).
    split; vm_compute; reflexivity. }
  split.
  { exists (FFinite false 15 9).
    split; vm_compute; reflexivity. }
  repeat split; vm_compute; reflexivity.
Qed.

(** C8: applying the record transform to its own result gives that result
    again. *)
Theorem C8_transform_idempotent (record : jrecord) :
  exists new_record,
    standardize_record record = Ok new_record /\
    standardize_record new_record = Ok new_record.
Proof.
  exists (renamed record). split; [apply standardize_record_Ok|].
  rewrite standardize_record_Ok. f_equal.
  unfold renamed at 1. rewrite fold_copy; [reflexivity| |].
  - apply NoDup_keys_renamed.
  - intros [k' v'] Hin. apply in_fold in Hin as [[]|[item [_ [-> ->]]]].
    simpl. split; [apply new_field_idempotent|apply coerced_idempotent].
Qed.

(** C9: every key of the transformed record is a canonical key of the table
    or a key of the input record that the table does not map; every key of
    the transformed record is the new name of a key of the input record; and
    every key of the input record is represented by exactly one key of the
    transformed record, which has no key twice. *)
Theorem C9_key_set (record : jrecord) :
  exists new_record,
    standardize_record record = Ok new_record /\
    NoDup (Dict.keys new_record) /\
    (forall k', In k' (Dict.keys new_record) ->
       In k' canonical_keys \/
       (In k' (Dict.keys record) /\ ~ In k' (Dict.keys FIELD_MAPPING))) /\
    (forall k', In k' (Dict.keys new_record) ->
       exists k, In k (Dict.keys record) /\ new_field k = k') /\
    (forall k, In k (Dict.keys record) ->
       exists! k', In k' (Dict.keys new_record) /\ new_field k = k').
Proof.
  exists (renamed record). split; [apply standardize_record_Ok|].
  split; [apply NoDup_keys_renamed|].
  assert (Hsrc : forall k', In k' (Dict.keys (renamed record)) ->
            exists k, In k (Dict.keys record) /\ new_field k = k').
  { intros k' H. apply in_keys_fold in H as [[]|[[k v] [Hin Hk]]].
    exists k. split; [|exact Hk].
    change k with (fst (k, v)). now apply in_map. }
  split; [|split].
  - intros k' H. destruct (Hsrc k' H) as [k [Hin <-]].
    destruct (new_field_cases k) as [Hm|[Hu Hk]].
    + left. unfold canonical_keys.
      change (new_field k) with (snd (k, new_field k)). now apply in_map.
    + right. now rewrite Hk.
  - exact Hsrc.
  - intros k Hin. exists (new_field k). split.
    + split; [|reflexivity]. apply in_keys_fold. right.
      unfold Dict.keys in Hin. apply in_map_iff in Hin as [item [<- Hitem]].
      now exists item.
    + now intros k' [_ <-].
Qed.

Lemma C9_key_set_witness :
  exists new_record,
    standardize_record
      [(lit "LOC_ID", VNone); (lit "customField", VInt 5)] = Ok new_record /\
    In (lit "customField") (Dict.keys new_record).
Proof.
  destruct (C9_key_set [(lit "LOC_ID", VNone); (lit "customField", VInt 5)])
    as [new_record [Hrun [_ [_ [_ Hrep]]]]].
  exists new_record. split; [exact Hrun|].
  destruct (Hrep (lit "customField")) as [k' [[Hin Hk] _]].
  - vm_compute. right. left. reflexivity.
  - assert (E : k' = lit "customField")
      by (rewrite <- Hk; vm_compute; reflexivity).
    rewrite <- E. exact Hin.
Defined.

(** C10: two record fields that carry the same value get the same stored
    value, whatever their keys, their records and their positions: in each
    new record the entry of the field (when no later field of the record is
    given the same new name) holds the coercion of the value alone. *)
Theorem C10_coercion_of_value_alone
    (before1 after1 before2 after2 : list (str * jvalue)) (k1 k2 : str)
    (value : jvalue) :
  (forall item, In item after1 -> new_field (fst item) <> new_field k1) ->
  (forall item, In item after2 -> new_field (fst item) <> new_field k2) ->
  exists new_record1 new_record2 stored,
    standardize_record (before1 ++ (k1, value) :: after1) = Ok new_record1 /\
    standardize_record (before2 ++ (k2, value) :: after2) = Ok new_record2 /\
    numeric_coercion value = Ok stored /\
    Dict.get new_record1 (new_field k1) = Some stored /\
    Dict.get new_record2 (new_field k2) = Some stored.
Proof.
  intros H1 H2.
  exists (renamed (before1 ++ (k1, value) :: after1)),
         (renamed (before2 ++ (k2, value) :: after2)), (coerced value).
  repeat split; try apply standardize_record_Ok.
  - apply numeric_coercion_Ok.
  - now apply get_fold_last.
  - now apply get_fold_last.
Qed.

Lemma C10_coercion_of_value_alone_witness :
  exists new_record1 new_record2 stored,
    standardize_record
      [(lit "pfc", VStr (lit "1.5")); (lit "hotel", VNone)] = Ok new_record1 /\
    standardize_record
      [(lit "a", VBool true); (lit "b", VStr (lit "1.5"))] = Ok new_record2 /\
    numeric_coercion (VStr (lit "1.5")) = Ok stored /\
    Dict.get new_record1 (new_field (lit "pfc")) = Some stored /\
    Dict.get new_record2 (new_field (lit "b")) = Some stored.
Proof.
  apply (@C10_coercion_of_value_alone
           [] [(lit "hotel", VNone)] [(lit "a", VBool true)] []
           (lit "pfc") (lit "b") (VStr (lit "1.5"))).
  - intros item [<-|[]]. vm_compute. discriminate.
  - intros item [].
Defined.

(** * Further properties of the program *)

(** ** The new record *)

Lemma mem_keys (d : jrecord) (k : str) :
  mem k (Dict.keys d) = true <-> In k (Dict.keys d).
Proof. apply mem_In. Qed.

Lemma keys_fold (items : list (str * jvalue)) (d : jrecord) :
  Dict.keys (fold_left step items d)
  = Dict.keys d
    ++ keep_first (Dict.keys d)
         (List.map (fun item => new_field (fst item)) items).
Proof.
  revert d. induction items as [|[k v] items IH]; intros d; simpl.
  - now rewrite app_nil_r.
  - rewrite IH. unfold step. simpl.
    destruct (mem (new_field k) (Dict.keys d)) eqn:E.
    + apply mem_In in E. now rewrite keys_set_old.
    + assert (Hnew : ~ In (new_field k) (Dict.keys d)).
      { rewrite <- mem_In. now rewrite E. }
      rewrite set_new by exact Hnew.
      unfold Dict.keys. rewrite map_app. simpl.
      now rewrite <- app_assoc.
Qed.

Lemma keep_first_length (seen l : list str) :
  (List.length (keep_first seen l) <= List.length l)%nat.
Proof.
  revert seen. induction l as [|k l IH]; intros seen; simpl; [lia|].
  destruct (mem k seen); [specialize (IH seen)|specialize (IH (seen ++ [k]))];
    simpl; lia.
Qed.

(** X2: the keys of the new record are the new names of the input keys, in the
    order in which each name first occurs; the new record has at most as many
    entries as the input record. *)
Theorem new_record_key_order (record : jrecord) :
  exists new_record,
    standardize_record record = Ok new_record /\
    Dict.keys new_record
    = keep_first [] (List.map new_field (Dict.keys record)) /\
    (List.length new_record <= List.length record)%nat.
Proof.
  exists (renamed record). split; [apply standardize_record_Ok|].
  assert (E : Dict.keys (renamed record)
              = keep_first [] (List.map new_field (Dict.keys record))).
  { unfold renamed. rewrite keys_fold. simpl.
    unfold Dict.keys. now rewrite map_map. }
  split; [exact E|].
  rewrite <- (length_map fst (renamed record)).
  change (List.map fst (renamed record)) with (Dict.keys (renamed record)).
  rewrite E.
  etransitivity; [apply keep_first_length|].
  unfold Dict.keys. now rewrite !length_map.
Qed.

Lemma get_step (d : jrecord) (item : str * jvalue) (c : str) :
  Dict.get (step d item) c
  = if str_eqb (new_field (fst item)) c then Some (coerced (snd item))
    else Dict.get d c.
Proof.
  unfold step. destruct (str_eqb_spec (new_field (fst item)) c) as [<-|Hk].
  - apply get_set_same.
  - now apply get_set_other.
Qed.

(** X3: the entry of a name [c] in the new record comes from the last item of
    the input record that is given the name [c], and holds the coercion of its
    value; a name that no item is given has no entry. *)
Theorem new_record_lookup (record : jrecord) (c : str) :
  exists new_record,
    standardize_record record = Ok new_record /\
    match find (fun item => str_eqb (new_field (fst item)) c) (rev record) with
    | Some item =>
        exists stored,
          numeric_coercion (snd item) = Ok stored /\
          Dict.get new_record c = Some stored
    | None => Dict.get new_record c = None
    end.
Proof.
  exists (renamed record). split; [apply standardize_record_Ok|].
  unfold renamed.
  induction record as [|[k v] record IH] using rev_ind; [reflexivity|].
  rewrite rev_app_distr, fold_left_app. simpl. rewrite get_step. simpl.
  destruct (str_eqb (new_field k) c).
  - exists (coerced v). split; [apply numeric_coercion_Ok|reflexivity].
  - exact IH.
Qed.

Lemma fold_map (items : list (str * jvalue)) (d : jrecord) :
  NoDup (Dict.keys d ++ List.map (fun item => new_field (fst item)) items) ->
  fold_left step items d
  = d ++ List.map (fun item => (new_field (fst item), coerced (snd item)))
           items.
Proof.
  revert d. induction items as [|[k v] items IH]; intros d Hnd; simpl.
  - now rewrite app_nil_r.
  - simpl in Hnd.
    assert (Hnew : ~ In (new_field k) (Dict.keys d)).
    { apply NoDup_remove_2 in Hnd. rewrite in_app_iff in Hnd. tauto. }
    unfold step at 2. simpl. rewrite set_new by exact Hnew.
    rewrite IH.
    + now rewrite <- app_assoc.
    + unfold Dict.keys in *. rewrite map_app. simpl.
      now rewrite <- app_assoc.
Qed.

(** X4: when no two keys of a record are given the same new name, the record
    is transformed field by field: the new record has the same number of
    entries, and its entry at each position is the new name and the coerced
    value of the item at that position. *)
Theorem field_by_field (record : jrecord) :
  NoDup (List.map new_field (Dict.keys record)) ->
  exists new_record,
    standardize_record record = Ok new_record /\
    List.length new_record = List.length record /\
    forall i k v, nth_error record i = Some (k, v) ->
      exists stored,
        numeric_coercion v = Ok stored /\
        nth_error new_record i = Some (new_field k, stored).
Proof.
  intros Hnd. exists (renamed record).
  split; [apply standardize_record_Ok|].
  assert (E : renamed record
              = List.map (fun item => (new_field (fst item),
                                       coerced (snd item))) record).
  { unfold renamed. rewrite fold_map; [reflexivity|].
    simpl. unfold Dict.keys in Hnd. now rewrite map_map in Hnd. }
  rewrite E. split; [apply length_map|].
  intros i k v Hi. exists (coerced v).
  split; [apply numeric_coercion_Ok|].
  now rewrite nth_error_map, Hi.
Qed.

Lemma field_by_field_witness :
  exists new_record,
    standardize_record
      [(lit "City", VStr (lit "Reno")); (lit "pfc", VStr (lit "12"));
       (lit "note", VNone)]
    = Ok new_record /\
    nth_error new_record 1
    = Some (lit "passengerFacilityCharges", VInt 12).
Proof.
  destruct (@field_by_field
              [(lit "City", VStr (lit "Reno")); (lit "pfc", VStr (lit "12"));
               (lit "note", VNone)])
    as [new_record [Hrun [_ Hnth]]].
  - apply distinct_NoDup. vm_compute. reflexivity.
  - exists new_record. split; [exact Hrun|].
    destruct (Hnth 1%nat (lit "pfc") (VStr (lit "12")) eq_refl)
      as [stored [Hstored ->]].
    assert (E : numeric_coercion (VStr (lit "12")) = Ok (VInt 12))
      by (vm_compute; reflexivity).
    rewrite E in Hstored. injection Hstored as <-.
    f_equal.
Defined.

(** X5: two distinct keys are given the same new name only when one of them is
    an old name of the table, the other one is the canonical key the table
    maps it to, and that canonical key is itself no old name. *)
Theorem collision_only_with_own_canonical_key (k1 k2 : str) :
  k1 <> k2 -> new_field k1 = new_field k2 ->
  (In (k1, k2) FIELD_MAPPING /\ ~ In k2 (Dict.keys FIELD_MAPPING)) \/
  (In (k2, k1) FIELD_MAPPING /\ ~ In k1 (Dict.keys FIELD_MAPPING)).
Proof.
  intros Hneq Hsame.
  destruct (new_field_cases k1) as [M1|[U1 E1]],
           (new_field_cases k2) as [M2|[U2 E2]].
  - rewrite Hsame in M1. elim Hneq. exact (FIELD_MAPPING_injective M1 M2).
  - left. rewrite Hsame, E2 in M1. tauto.
  - right. rewrite <- Hsame, E1 in M2. tauto.
  - congruence.
Qed.

Lemma collision_only_with_own_canonical_key_witness :
  (In (lit "LOC_ID", lit "locId") FIELD_MAPPING /\
   ~ In (lit "locId") (Dict.keys FIELD_MAPPING)) \/
  (In (lit "locId", lit "LOC_ID") FIELD_MAPPING /\
   ~ In (lit "LOC_ID") (Dict.keys FIELD_MAPPING)).
Proof.
  apply collision_only_with_own_canonical_key.
  - vm_compute. discriminate.
  - vm_compute. reflexivity.
Defined.

Lemma coerced_cases (value : jvalue) :
  coerced value = value \/
  exists s, value = VStr s /\ purely_numeric s = true /\
            convert s = Ok (coerced value) /\
            ((exists z, coerced value = VInt z) \/
             (exists f, coerced value = VFloat f)).
Proof.
  destruct value; try (left; reflexivity).
  unfold coerced. simpl.
  destruct (purely_numeric s) eqn:Hg; [|now left].
  destruct (convert s) as [v|e] eqn:Ec.
  - right. exists s. simpl.
    split; [reflexivity|]. split; [exact Hg|]. split; [exact Ec|].
    exact (convert_number _ Ec).
  - apply convert_raises in Ec. subst e. now left.
Qed.

(** X6: every entry of the new record comes from an item of the input record:
    its key is the new name of the item's key, and its value is the item's
    value, unless that value is a text that passes the guard, in which case it
    may be the integer or the float the text was converted to. Nothing else is
    changed: no value becomes a text, and lists and dicts inside a record are
    handed on as they are. *)
Theorem new_record_provenance (record : jrecord) :
  exists new_record,
    standardize_record record = Ok new_record /\
    forall k' v', In (k', v') new_record ->
      exists k v,
        In (k, v) record /\ k' = new_field k /\
        (v' = v \/
         exists s, v = VStr s /\ purely_numeric s = true /\
                   convert s = Ok v' /\
                   ((exists z, v' = VInt z) \/ (exists f, v' = VFloat f))).
Proof.
  exists (renamed record). split; [apply standardize_record_Ok|].
  intros k' v' Hin.
  apply in_fold in Hin as [[]|[[k v] [Hitem [-> ->]]]].
  exists k, v. split; [exact Hitem|]. split; [reflexivity|].
  apply coerced_cases.
Qed.

(** X7: a record that is standardized already is returned as it is: when its
    keys are distinct and left alone by the table, and the coercion leaves its
    values alone, the new record is the record. *)
Theorem standardized_record_unchanged (record : jrecord) :
  NoDup (Dict.keys record) ->
  (forall k v, In (k, v) record ->
     new_field k = k /\ numeric_coercion v = Ok v) ->
  standardize_record record = Ok record.
Proof.
  intros Hnd H. rewrite standardize_record_Ok. f_equal.
  unfold renamed. rewrite fold_copy; [reflexivity|exact Hnd|].
  intros [k v] Hin. destruct (H k v Hin) as [Hk Hv]. simpl.
  split; [exact Hk|]. unfold coerced. now rewrite Hv.
Qed.

Lemma standardized_record_unchanged_witness :
  standardize_record
    [(lit "locId", VStr (lit "RNO")); (lit "enplanements", VInt 42);
     (lit "tags", VList [VStr (lit "7")])]
  = Ok [(lit "locId", VStr (lit "RNO")); (lit "enplanements", VInt 42);
        (lit "tags", VList [VStr (lit "7")])].
Proof.
  apply standardized_record_unchanged.
  - apply distinct_NoDup. vm_compute. reflexivity.
  - intros k v [[= <- <-]|[[= <- <-]|[[= <- <-]|[]]]];
      split; vm_compute; reflexivity.
Defined.

(** ** The lines printed *)

Lemma records_loop_stdout (data : list jrecord) (i : nat)
    (standardized_data : list jrecord) (stdout : list printed) :
  fst (records_loop i data standardized_data stdout)
  = stdout
    ++ List.map (fun j => ProcessingRecord (j + 1))
         (filter (fun j => Nat.eqb (Nat.modulo j 1000) 0)
            (seq i (List.length data))).
Proof.
  revert i standardized_data stdout.
  induction data as [|record data IH]; intros i acc out.
  - simpl. now rewrite app_nil_r.
  - cbn [records_loop List.length seq filter].
    rewrite standardize_record_Ok, IH.
    destruct (Nat.eqb (Nat.modulo i 1000) 0).
    + cbn [List.map]. now rewrite <- app_assoc.
    + reflexivity.
Qed.

(** X1: a run over [n] records prints the two opening lines, one progress
    line "Processing record i+1" for every index [i] below [n] that is a
    multiple of 1000, and the line that announces the write.  When the write
    succeeds, the four closing lines follow, which report the 95 fields of
    the table and [n] records processed; when the write raises, the run
    raises that exception and prints no closing line. *)
Theorem printed_lines (input_file output_file : str) (data : list jrecord)
    (written : result unit) :
  fst (standardize_json_fields_run input_file output_file data written)
  = [LoadingDataFrom input_file; ProcessingRecords (List.length data)]
    ++ progress_marks (List.length data)
    ++ [WritingTo output_file]
    ++ match written with
       | Ok _ => [Complete; SummaryHeader; TotalFieldsMapped 95;
                  RecordsProcessed (List.length data)]
       | Raise _ => []
       end /\
  (forall e, written = Raise e ->
     snd (standardize_json_fields_run input_file output_file data written)
     = Raise e).
Proof.
  unfold standardize_json_fields_run.
  pose proof (records_loop_stdout data 0 []
                [LoadingDataFrom input_file;
                 ProcessingRecords (List.length data)]) as Hout.
  pose proof (records_loop_Ok data 0 []
                [LoadingDataFrom input_file;
                 ProcessingRecords (List.length data)]) as Hres.
  destruct (records_loop _ _ _ _) as [out [sd|e]]; cbn [fst snd] in *;
    [|discriminate].
  injection Hres as ->. rewrite Hout.
  destruct written as [[]|e]; cbn [fst snd app].
  - split; [|discriminate].
    rewrite length_map, FIELD_MAPPING_length.
    unfold progress_marks. do 2 f_equal.
    symmetry. apply (app_assoc _ [WritingTo output_file]).
  - split; [|now intros e' [= <-]].
    reflexivity.
Qed.

Lemma printed_lines_witness :
  standardize_json_fields_run (lit "in") (lit "out") [[]; []]
    (Raise OSError)
  = ([LoadingDataFrom (lit "in"); ProcessingRecords 2; ProcessingRecord 1;
      WritingTo (lit "out")],
     Raise OSError).
Proof.
  apply injective_projections.
  - exact (proj1 (printed_lines (lit "in") (lit "out") [[]; []]
                    (Raise OSError))).
  - exact (proj2 (printed_lines (lit "in") (lit "out") [[]; []]
                    (Raise OSError)) OSError eq_refl).
Defined.

(** ** Texts that are and texts that are not converted *)

Module NumeralFacts.
Import Text Builtins.

Local Open Scope N_scope.

Lemma ascii_isdigit_cases (c : char) :
  Unicode.ascii_isdigit c = true ->
  c = 48 \/ c = 49 \/ c = 50 \/ c = 51 \/ c = 52 \/
  c = 53 \/ c = 54 \/ c = 55 \/ c = 56 \/ c = 57.
Proof.
  unfold Unicode.ascii_isdigit. intros H.
  apply andb_prop in H as [H1 H2].
  apply N.leb_le in H1. apply N.leb_le in H2. lia.
Qed.

Ltac each_digit H :=
  apply ascii_isdigit_cases in H;
  repeat (destruct H as [->|H]; [|]); [..|subst].

Lemma ascii_isdigit_isdigit (c : char) :
  Unicode.ascii_isdigit c = true -> Unicode.isdigit c = true.
Proof. intros H. each_digit H; vm_compute; reflexivity. Qed.

Lemma ascii_isdigit_plain (c : char) :
  Unicode.ascii_isdigit c = true ->
  (c <? 127) = true /\ Unicode.ascii_isspace c = false /\
  ~ In c (0x5f :: symbols).
Proof.
  intros H. each_digit H; (split; [reflexivity|split; [reflexivity|]]);
    simpl; intuition discriminate.
Qed.

Lemma ascii_digits_absent (s : str) (a : char) :
  ascii_digits s -> Unicode.ascii_isdigit a = false -> ~ In a s.
Proof.
  intros Hs Ha Hin. unfold ascii_digits in Hs. rewrite Forall_forall in Hs.
  specialize (Hs a Hin). congruence.
Qed.

Lemma py_isdigit_ascii_digits (s : str) :
  s <> [] -> ascii_digits s -> py_isdigit s = true.
Proof.
  intros Hne Hs. destruct s as [|c s]; [congruence|].
  unfold py_isdigit. apply forallb_forall. intros x Hx.
  apply ascii_isdigit_isdigit.
  unfold ascii_digits in Hs. rewrite Forall_forall in Hs. now apply Hs.
Qed.

Lemma to_ascii_app (a b : str) :
  Forall (fun c => (c <? 127) = true) a -> to_ascii (a ++ b) = a ++ to_ascii b.
Proof.
  induction 1 as [|c a Hc _ IH]; [reflexivity|].
  simpl. now rewrite Hc, IH.
Qed.

Lemma to_ascii_below (s : str) :
  Forall (fun c => (c <? 127) = true) s -> to_ascii s = s.
Proof.
  intros H. rewrite <- (app_nil_r s) at 1.
  rewrite to_ascii_app by assumption. simpl. apply app_nil_r.
Qed.

Lemma remove_underscores_absent (prev : char) (s : str) :
  prev <> 0x5f -> ~ In 0x5f s -> remove_underscores prev s = Some s.
Proof.
  revert prev. induction s as [|c s IH]; intros prev Hprev Hs; simpl.
  - apply N.eqb_neq in Hprev. now rewrite Hprev.
  - assert (Hc : c <> 0x5f) by (intros ->; apply Hs; now left).
    apply N.eqb_neq in Hprev. rewrite Hprev.
    rewrite IH; [|exact Hc|intros H; apply Hs; now right].
    apply N.eqb_neq in Hc. now rewrite Hc.
Qed.

(** The digit scans read a run of digits up to a character that is none. *)
Lemma span_digits_app (ds rest : str) :
  ascii_digits ds ->
  match rest with
  | [] => True
  | c :: _ => Unicode.ascii_isdigit c = false
  end ->
  span_digits (ds ++ rest) = (digit_values ds, rest).
Proof.
  intros Hds Hrest. induction Hds as [|c ds Hc _ IH]; simpl.
  - destruct rest as [|c rest]; [reflexivity|]. simpl. now rewrite Hrest.
  - now rewrite Hc, IH.
Qed.

Lemma scan_int_app (ds rest : str) :
  ascii_digits ds ->
  match rest with
  | [] => True
  | c :: _ => Unicode.ascii_isdigit c = false /\ c <> 0x5f
  end ->
  scan_int false (ds ++ rest) = Some (digit_values ds, rest).
Proof.
  intros Hds Hrest. induction Hds as [|c ds Hc _ IH]; simpl.
  - destruct rest as [|c rest]; [reflexivity|]. simpl.
    destruct Hrest as [Hd Hu]. apply N.eqb_neq in Hu. now rewrite Hd, Hu.
  - now rewrite Hc, IH.
Qed.

Lemma filter_all (f : char -> bool) (s : str) :
  Forall (fun c => f c = true) s -> filter f s = s.
Proof.
  induction 1 as [|c s Hc _ IH]; simpl; [reflexivity|].
  now rewrite Hc, IH.
Qed.

Lemma contains_absent (a : char) (sub s : str) :
  ~ In a s -> contains (a :: sub) s = false.
Proof.
  intros H. destruct (contains (a :: sub) s) eqn:E; [|reflexivity].
  now apply GuardFacts.contains_In in E.
Qed.

Lemma contains_present (a : char) (s : str) :
  In a s -> contains [a] s = true.
Proof.
  induction s as [|c s IH]; simpl; [contradiction|].
  intros [->|H].
  - now rewrite N.eqb_refl.
  - rewrite IH by assumption. apply orb_true_r.
Qed.

End NumeralFacts.

Import NumeralFacts.

Lemma stripped_keeps (s : str) (c : char) :
  In c s -> ~ In c symbols -> In c (stripped s).
Proof.
  intros Hc Hnin. unfold stripped, symbols in *. simpl in Hnin.
  repeat apply replace_keeps; try discriminate; try assumption.
  all: simpl; intuition congruence.
Qed.

(** X12: a text with a character that is neither a digit nor one of ['.'],
    ['-'], ['E'], ['e'], ['+'] (a letter, a space, a comma, an underscore, a
    sign of a currency) is never converted. *)
Theorem text_with_other_character_kept (s : str) (c : char) :
  In c s -> Unicode.isdigit c = false -> ~ In c symbols ->
  numeric_coercion (VStr s) = Ok (VStr s).
Proof.
  intros Hc Hd Hs. simpl.
  rewrite (@purely_numeric_rejects s c); auto using stripped_keeps.
Qed.

Lemma text_with_other_character_kept_witness :
  numeric_coercion (VStr (lit "1,234")) = Ok (VStr (lit "1,234")).
Proof.
  apply (@text_with_other_character_kept (lit "1,234") 0x2c%N).
  - vm_compute. right. left. reflexivity.
  - vm_compute. reflexivity.
  - vm_compute. intuition discriminate.
Defined.

(** X13: a text with an exponent mark (['e'] or ['E']) and no ['+'] is never
    converted: ["1e5"], ["1E-5"] and ["2.5e-3"] stay texts. *)
Theorem exponent_without_plus_kept (s : str) :
  In 0x65%N s \/ In 0x45%N s -> ~ In 0x2b%N s ->
  numeric_coercion (VStr s) = Ok (VStr s).
Proof.
  intros He Hplus. simpl.
  assert (Hg : purely_numeric s = false).
  { destruct He as [He|He];
      [apply purely_numeric_rejects with (c := 0x65%N)
      |apply purely_numeric_rejects with (c := 0x45%N)];
      try reflexivity.
    all: rewrite stripped_without_plus by assumption.
    all: repeat apply replace_keeps; try discriminate; try assumption.
    all: simpl; intuition discriminate. }
  now rewrite Hg.
Qed.

Lemma exponent_without_plus_kept_witness :
  numeric_coercion (VStr (lit "2.5e-3")) = Ok (VStr (lit "2.5e-3")).
Proof.
  apply exponent_without_plus_kept.
  - left. vm_compute. intuition.
  - vm_compute. intuition discriminate.
Defined.

Lemma minus_digits_below (neg : bool) (s : str) :
  ascii_digits s -> Forall (fun c => (c <? 127)%N = true) (minus neg ++ s).
Proof.
  intros Hs. apply Forall_app. split.
  - destruct neg; repeat constructor.
  - eapply Forall_impl; [|exact Hs]. intros c Hc.
    now apply ascii_isdigit_plain in Hc.
Qed.

Lemma take_sign_minus (neg : bool) (s : str) :
  match s with
  | [] => neg = true
  | c :: _ => c <> 0x2d%N /\ c <> 0x2b%N
  end ->
  Builtins.take_sign (minus neg ++ s) = (neg, s).
Proof.
  destruct neg; [reflexivity|]. simpl.
  destruct s as [|c s]; [discriminate|]. intros [H1 H2].
  apply N.eqb_neq in H1, H2. simpl. now rewrite H1, H2.
Qed.

Lemma skip_space_head (s : str) :
  match s with
  | [] => True
  | c :: _ => Unicode.ascii_isspace c = false
  end ->
  Builtins.skip_space s = s.
Proof. destruct s as [|c s]; [reflexivity|]. simpl. now intros ->. Qed.

Lemma digit_head_facts (c : char) :
  Unicode.ascii_isdigit c = true ->
  Unicode.ascii_isspace c = false /\ c <> 0x2d%N /\ c <> 0x2b%N /\
  c <> 0x5f%N /\ c <> 0x2e%N /\ c <> 0x45%N /\ c <> 0x65%N.
Proof.
  intros H. apply ascii_isdigit_plain in H as [_ [Hsp Hsym]].
  split; [exact Hsp|]. unfold symbols in Hsym. simpl in Hsym.
  repeat split; intros ->; tauto.
Qed.

Lemma py_int_digits (neg : bool) (s : str) :
  s <> [] -> ascii_digits s ->
  (List.length s <= Builtins.int_max_str_digits)%nat ->
  Builtins.py_int (minus neg ++ s)
  = Ok (let v := Z.of_N (Builtins.digits_value (digit_values s)) in
        if neg then Z.opp v else v).
Proof.
  intros Hne Hs Hlen. unfold Builtins.py_int.
  rewrite to_ascii_below by now apply minus_digits_below.
  destruct s as [|c s]; [congruence|].
  pose proof (Forall_inv Hs) as Hc. apply digit_head_facts in Hc.
  destruct Hc as [Hsp [Hm [Hp [Hu _]]]].
  rewrite skip_space_head
    by (destruct neg; simpl; [reflexivity|exact Hsp]).
  rewrite take_sign_minus by (split; assumption).
  change (starts_with [0x5f%N] (c :: s)) with ((0x5f =? c)%N && true).
  rewrite (proj2 (N.eqb_neq 0x5f c)) by congruence. cbn [andb].
  rewrite <- (app_nil_r (c :: s)) at 1.
  rewrite scan_int_app by (exact Hs || exact I).
  replace (Nat.ltb Builtins.int_max_str_digits
             (List.length (digit_values (c :: s)))) with false
    by (symmetry; apply Nat.ltb_ge; unfold digit_values;
        now rewrite length_map).
  reflexivity.
Qed.

Lemma stripped_filter (s : str) :
  ~ In 0x2b%N s ->
  stripped s
  = filter (fun c => negb (N.eqb c 0x2d)) (filter (fun c => negb (N.eqb c 0x2e)) s).
Proof.
  intros H. rewrite stripped_without_plus by exact H.
  rewrite (replace_char_filter 0x2e%N s : replace (lit ".") [] s = _).
  exact (replace_char_filter 0x2d%N _).
Qed.

Lemma filter_digits (a : char) (s : str) :
  ascii_digits s -> Unicode.ascii_isdigit a = false ->
  filter (fun c => negb (N.eqb c a)) s = s.
Proof.
  intros Hs Ha. apply filter_all. apply Forall_forall. intros c Hc.
  destruct (N.eqb_spec c a) as [->|_]; [|reflexivity].
  elim (@ascii_digits_absent s a Hs Ha Hc).
Qed.

Lemma in_minus_digits (neg : bool) (s : str) (a : char) :
  ascii_digits s -> Unicode.ascii_isdigit a = false -> a <> 0x2d%N ->
  ~ In a (minus neg ++ s).
Proof.
  intros Hs Ha Hm Hin. apply in_app_or in Hin as [Hin|Hin].
  - destruct neg; simpl in Hin; intuition congruence.
  - exact (@ascii_digits_absent s a Hs Ha Hin).
Qed.

(** X9: a text of ASCII digits, with or without a leading ['-'], is converted
    to the integer it denotes, as long as it has no more than 4300 digits (the
    limit of [int] on text). *)
Theorem integer_text_converted (neg : bool) (s : str) :
  s <> [] -> ascii_digits s ->
  (List.length s <= Builtins.int_max_str_digits)%nat ->
  numeric_coercion (VStr (minus neg ++ s))
  = Ok (VInt (let v := Z.of_N (Builtins.digits_value (digit_values s)) in
              if neg then Z.opp v else v)).
Proof.
  intros Hne Hs Hlen.
  assert (Hstrip : stripped (minus neg ++ s) = s).
  { rewrite stripped_filter by (apply in_minus_digits; easy).
    rewrite !filter_app, !(filter_digits _ Hs) by reflexivity.
    destruct neg; reflexivity. }
  unfold numeric_coercion, purely_numeric. rewrite Hstrip.
  rewrite py_isdigit_ascii_digits by assumption.
  unfold convert.
  replace (contains (lit "E+") (minus neg ++ s)) with false
    by (symmetry; apply (@contains_absent 0x45%N); apply in_minus_digits;
        easy).
  replace (contains (lit "e+") (minus neg ++ s)) with false
    by (symmetry; apply (@contains_absent 0x65%N); apply in_minus_digits;
        easy).
  replace (contains (lit ".") (minus neg ++ s)) with false
    by (symmetry; apply (@contains_absent 0x2e%N); apply in_minus_digits;
        easy).
  cbn [orb]. rewrite py_int_digits by assumption. reflexivity.
Qed.

Lemma integer_text_converted_witness :
  numeric_coercion (VStr (lit "-0042")) = Ok (VInt (-42)).
Proof.
  apply (@integer_text_converted true (lit "0042")).
  - discriminate.
  - repeat constructor.
  - apply Nat.leb_le. vm_compute. reflexivity.
Defined.

Lemma head_not_sign (neg : bool) (ds rest : str) (c : char) :
  ascii_digits ds -> c <> 0x2d%N -> c <> 0x2b%N ->
  match ds ++ c :: rest with
  | [] => neg = true
  | x :: _ => x <> 0x2d%N /\ x <> 0x2b%N
  end.
Proof.
  intros Hds H1 H2. destruct ds as [|d ds]; simpl; [tauto|].
  apply Forall_inv in Hds. apply digit_head_facts in Hds. tauto.
Qed.

(** [strtod] on digits, a point and digits. *)
Lemma strtod_pointed (neg : bool) (ip fp rest : str) :
  ascii_digits ip -> ascii_digits fp -> ip ++ fp <> [] ->
  match rest with
  | [] => True
  | c :: _ => Unicode.ascii_isdigit c = false
  end ->
  Builtins.strtod (minus neg ++ ip ++ 0x2e%N :: fp ++ rest)
  = Some (FFinite neg (Builtins.digits_value (digit_values (ip ++ fp)))
            (fst (Builtins.parse_exponent rest)
             - Z.of_nat (List.length fp)),
          snd (Builtins.parse_exponent rest)).
Proof.
  intros Hip Hfp Hne Hrest. unfold Builtins.strtod.
  rewrite take_sign_minus
    by (apply (@head_not_sign neg ip (fp ++ rest) 0x2e%N); easy).
  rewrite span_digits_app by (exact Hip || reflexivity).
  cbn [N.eqb Pos.eqb].
  rewrite span_digits_app by assumption.
  unfold digit_values. rewrite map_app.
  fold (digit_values ip). fold (digit_values fp).
  destruct (digit_values ip ++ digit_values fp) as [|d ds] eqn:E.
  - apply app_eq_nil in E as [E1 E2]. unfold digit_values in E1, E2.
    apply map_eq_nil in E1, E2. subst. now elim Hne.
  - destruct (Builtins.parse_exponent rest) as [e s4]. simpl.
    rewrite <- E. unfold digit_values. now rewrite length_map.
Qed.

(** [strtod] on digits without a point. *)
Lemma strtod_plain (neg : bool) (ip rest : str) :
  ip <> [] -> ascii_digits ip ->
  match rest with
  | [] => True
  | c :: _ => Unicode.ascii_isdigit c = false /\ c <> 0x2e%N
  end ->
  Builtins.strtod (minus neg ++ ip ++ rest)
  = Some (FFinite neg (Builtins.digits_value (digit_values ip))
            (fst (Builtins.parse_exponent rest)),
          snd (Builtins.parse_exponent rest)).
Proof.
  intros Hne Hip Hrest. unfold Builtins.strtod.
  rewrite take_sign_minus.
  2:{ destruct ip as [|d ip]; [congruence|]. simpl.
      apply Forall_inv in Hip. apply digit_head_facts in Hip. tauto. }
  rewrite span_digits_app
    by (exact Hip || (destruct rest; [exact I|tauto])).
  assert (Hfp : match rest with
                | [] => ([], [])
                | c :: s2' =>
                    if (c =? 0x2e)%N then Builtins.span_digits s2'
                    else ([], rest)
                end = (@nil N, rest)).
  { destruct rest as [|c rest]; [reflexivity|].
    destruct Hrest as [_ Hc]. apply N.eqb_neq in Hc. now rewrite Hc. }
  rewrite Hfp. rewrite app_nil_r.
  destruct (digit_values ip) as [|d ds] eqn:E.
  - destruct ip; [congruence|discriminate].
  - destruct (Builtins.parse_exponent rest) as [e s4]. simpl.
    now rewrite Z.sub_0_r.
Qed.

Lemma py_float_strtod (text rest : str) (f : PyFloat) :
  Forall (fun c => (c <? 127)%N = true) text -> ~ In 0x5f%N text ->
  match text with
  | [] => True
  | c :: _ => Unicode.ascii_isspace c = false
  end ->
  Builtins.strtod text = Some (f, rest) ->
  Builtins.py_float text
  = match Builtins.skip_space rest with
    | [] => Ok f
    | _ :: _ => Raise ValueError
    end.
Proof.
  intros Hlow Hus Hhead Hparse. unfold Builtins.py_float.
  rewrite to_ascii_below by exact Hlow.
  rewrite remove_underscores_absent by (discriminate || exact Hus).
  rewrite skip_space_head by exact Hhead.
  now rewrite Hparse.
Qed.

Lemma in_decimal_text (neg : bool) (ip fp : str) (a : char) :
  ascii_digits ip -> ascii_digits fp ->
  In a (minus neg ++ ip ++ 0x2e%N :: fp) ->
  a = 0x2d%N \/ a = 0x2e%N \/ Unicode.ascii_isdigit a = true.
Proof.
  intros Hip Hfp Hin. unfold ascii_digits in *.
  rewrite Forall_forall in Hip, Hfp.
  apply in_app_or in Hin as [Hin|Hin].
  - destruct neg; simpl in Hin; intuition.
  - apply in_app_or in Hin as [Hin|[Hin|Hin]]; auto.
Qed.

Lemma decimal_text_absent (neg : bool) (ip fp : str) (a : char) :
  ascii_digits ip -> ascii_digits fp ->
  a <> 0x2d%N -> a <> 0x2e%N -> Unicode.ascii_isdigit a = false ->
  ~ In a (minus neg ++ ip ++ 0x2e%N :: fp).
Proof.
  intros Hip Hfp H1 H2 H3 Hin.
  apply in_decimal_text in Hin as [H|[H|H]]; congruence.
Qed.

Lemma filter_decimal_text (neg : bool) (ip fp : str) :
  ascii_digits ip -> ascii_digits fp ->
  filter (fun c => negb (N.eqb c 0x2d))
    (filter (fun c => negb (N.eqb c 0x2e))
       (minus neg ++ ip ++ 0x2e%N :: fp))
  = ip ++ fp.
Proof.
  intros Hip Hfp.
  assert (E1 : filter (fun c => negb (N.eqb c 0x2e))
                 (minus neg ++ ip ++ 0x2e%N :: fp)
               = minus neg ++ ip ++ fp).
  { rewrite !filter_app. f_equal; [destruct neg; reflexivity|].
    rewrite (filter_digits _ Hip) by reflexivity. f_equal.
    change (filter (fun c => negb (N.eqb c 0x2e)) (0x2e%N :: fp))
      with (filter (fun c => negb (N.eqb c 0x2e)) fp).
    now apply filter_digits. }
  rewrite E1, !filter_app.
  rewrite (filter_digits _ Hip), (filter_digits _ Hfp) by reflexivity.
  destruct neg; reflexivity.
Qed.

(** What the model of [float] reads from digits with a point. *)
Lemma decimal_text_parsed (neg : bool) (ip fp : str) :
  ascii_digits ip -> ascii_digits fp -> ip ++ fp <> [] ->
  numeric_coercion (VStr (minus neg ++ ip ++ 0x2e%N :: fp))
  = Ok (VFloat (FFinite neg
                  (Builtins.digits_value (digit_values (ip ++ fp)))
                  (- Z.of_nat (List.length fp)))).
Proof.
  intros Hip Hfp Hne.
  set (text := minus neg ++ ip ++ 0x2e%N :: fp).
  assert (Habs : forall a, a <> 0x2d%N -> a <> 0x2e%N ->
                   Unicode.ascii_isdigit a = false -> ~ In a text)
    by (intros a; now apply decimal_text_absent).
  assert (Hstrip : stripped text = ip ++ fp).
  { rewrite stripped_filter by (apply Habs; easy). unfold text.
    now apply filter_decimal_text. }
  unfold numeric_coercion, purely_numeric. rewrite Hstrip.
  rewrite py_isdigit_ascii_digits
    by (assumption || (apply Forall_app; now split)).
  unfold convert.
  replace (contains (lit "E+") text) with false
    by (symmetry; apply (@contains_absent 0x45%N); apply Habs; easy).
  replace (contains (lit "e+") text) with false
    by (symmetry; apply (@contains_absent 0x65%N); apply Habs; easy).
  replace (contains (lit ".") text) with true
    by (symmetry; apply (@contains_present 0x2e%N); unfold text;
        rewrite !in_app_iff; right; right; now left).
  cbn [orb].
  rewrite (@py_float_strtod text []
             (FFinite neg (Builtins.digits_value (digit_values (ip ++ fp)))
                (- Z.of_nat (List.length fp)))).
  - reflexivity.
  - apply Forall_forall. intros a Ha.
    apply in_decimal_text in Ha as [->|[->|Ha]]; try reflexivity;
      try assumption.
    now apply ascii_isdigit_plain in Ha.
  - apply Habs; easy.
  - unfold text. destruct neg; [reflexivity|]. simpl.
    destruct ip as [|d ip]; [reflexivity|]. simpl.
    apply Forall_inv in Hip. now apply digit_head_facts in Hip.
  - unfold text. rewrite <- (app_nil_r fp) at 1.
    now rewrite strtod_pointed.
Qed.



Lemma remove_underscores_prefix (ds rest s' : str) (c prev : char) :
  ascii_digits ds -> c <> 0x5f%N ->
  Builtins.remove_underscores prev (ds ++ c :: rest) = Some s' ->
  exists rest', s' = ds ++ c :: rest'.
Proof.
  intros Hds Hc. revert prev s'.
  induction Hds as [|d ds Hd _ IH]; intros prev s'; simpl.
  - apply N.eqb_neq in Hc. rewrite Hc.
    destruct (_ && _); [discriminate|].
    destruct (Builtins.remove_underscores c rest) as [r|]; [|discriminate].
    intros [= <-]. now exists r.
  - pose proof (digit_head_facts _ Hd) as [_ [_ [_ [Hu _]]]].
    apply N.eqb_neq in Hu. rewrite Hu, Hd, andb_false_r.
    destruct (Builtins.remove_underscores d (ds ++ c :: rest)) as [r|] eqn:E;
      [|discriminate].
    intros [= <-]. apply IH in E as [rest' ->]. now exists rest'.
Qed.

Lemma py_int_digits_then_minus (ds rest : str) :
  ds <> [] -> ascii_digits ds ->
  Builtins.py_int (ds ++ 0x2d%N :: rest) = Raise ValueError.
Proof.
  intros Hne Hds. unfold Builtins.py_int.
  rewrite to_ascii_app
    by (eapply Forall_impl; [|exact Hds]; intros c Hc;
        now apply ascii_isdigit_plain in Hc).
  change (Builtins.to_ascii (0x2d%N :: rest))
    with (0x2d%N :: Builtins.to_ascii rest).
  destruct ds as [|d ds]; [congruence|].
  pose proof (digit_head_facts _ (Forall_inv Hds))
    as [Hsp [Hm [Hp [Hu _]]]].
  rewrite skip_space_head by exact Hsp.
  rewrite (@take_sign_minus false
             ((d :: ds) ++ 0x2d%N :: Builtins.to_ascii rest) (conj Hm Hp)
           : Builtins.take_sign
               ((d :: ds) ++ 0x2d%N :: Builtins.to_ascii rest) = _).
  change (starts_with [0x5f%N] ((d :: ds) ++ 0x2d%N :: Builtins.to_ascii rest))
    with ((0x5f =? d)%N && true).
  rewrite (proj2 (N.eqb_neq 0x5f d)) by congruence. cbn [andb].
  rewrite scan_int_app by (exact Hds || (split; [reflexivity|discriminate])).
  destruct (Nat.ltb _ _); [reflexivity|].
  destruct (digit_values (d :: ds)); reflexivity.
Qed.

Lemma py_float_digits_then_minus (ds rest : str) :
  ds <> [] -> ascii_digits ds ->
  Builtins.py_float (ds ++ 0x2d%N :: rest) = Raise ValueError.
Proof.
  intros Hne Hds. unfold Builtins.py_float.
  destruct (Builtins.remove_underscores _ _) as [s'|] eqn:E; [|reflexivity].
  rewrite to_ascii_app in E
    by (eapply Forall_impl; [|exact Hds]; intros c Hc;
        now apply ascii_isdigit_plain in Hc).
  change (Builtins.to_ascii (0x2d%N :: rest))
    with (0x2d%N :: Builtins.to_ascii rest) in E.
  apply remove_underscores_prefix in E as [rest' ->];
    [|exact Hds|discriminate].
  rewrite skip_space_head.
  2:{ destruct ds as [|d ds]; [congruence|]. simpl.
      now apply (digit_head_facts _ (Forall_inv Hds)). }
  assert (Hrest : Unicode.ascii_isdigit 0x2d%N = false /\ 0x2d%N <> 0x2e%N)
    by (split; [reflexivity|discriminate]).
  pose proof (@strtod_plain false ds (0x2d%N :: rest') Hne Hds Hrest) as Hp.
  cbn [minus app] in Hp.
  destruct (Builtins.strtod _) as [[f r]|]; [|discriminate].
  injection Hp as -> ->. reflexivity.
Qed.

(** X14: a text that starts with ASCII digits followed by a ['-'] (a date such
    as ["2024-01-15"], a range, a telephone number) is never converted,
    although it may pass the guard. *)
Theorem digits_then_minus_kept (ds rest : str) :
  ds <> [] -> ascii_digits ds ->
  numeric_coercion (VStr (ds ++ 0x2d%N :: rest))
  = Ok (VStr (ds ++ 0x2d%N :: rest)).
Proof.
  intros Hne Hds. unfold numeric_coercion.
  destruct (purely_numeric _); [|reflexivity].
  unfold convert.
  rewrite py_float_digits_then_minus, py_int_digits_then_minus by assumption.
  destruct (_ || _); [|destruct (contains _ _)]; reflexivity.
Qed.

Lemma digits_then_minus_kept_witness :
  purely_numeric (lit "2024-01-15") = true /\
  numeric_coercion (VStr (lit "2024-01-15")) = Ok (VStr (lit "2024-01-15")).
Proof.
  split; [vm_compute; reflexivity|].
  apply (@digits_then_minus_kept (lit "2024") (lit "01-15")).
  - discriminate.
  - repeat constructor.
Defined.

Lemma replace_head_absent (a : char) (old new s : str) :
  ~ In a s -> replace (a :: old) new s = s.
Proof.
  unfold replace. induction s as [|c s IH]; intros Ha; [reflexivity|].
  rewrite replace_from_nomatch.
  - f_equal. apply IH. intros H. apply Ha. now right.
  - simpl. destruct (N.eqb_spec a c) as [->|_]; [|reflexivity].
    elim Ha. now left.
Qed.

(** One occurrence of a two-character [old], after a text without its first
    and before a text without its second character, is taken out. *)
Lemma replace_pair_once (a b : char) (p q : str) :
  ~ In a p -> ~ In b q -> replace [a; b] [] (p ++ a :: b :: q) = p ++ q.
Proof.
  intros Hp Hq. unfold replace. induction p as [|c p IH].
  - etransitivity;
      [apply (@replace_from_match [a; b] [] q); discriminate|].
    exact (@replace_pair_absent a b [] q Hq).
  - change ((c :: p) ++ a :: b :: q) with (c :: (p ++ a :: b :: q)).
    rewrite replace_from_nomatch.
    + simpl. f_equal. apply IH. intros H. apply Hp. now right.
    + simpl. destruct (N.eqb_spec a c) as [->|_]; [|reflexivity].
      elim Hp. now left.
Qed.

Lemma contains_middle (sub p q : str) : contains sub (p ++ sub ++ q) = true.
Proof.
  induction p as [|c p IH].
  - destruct sub as [|x sub]; [destruct q; reflexivity|].
    change ([] ++ (x :: sub) ++ q) with (x :: (sub ++ q)).
    cbn [contains].
    change (x :: sub ++ q) with ((x :: sub) ++ q).
    now rewrite starts_with_app.
  - change ((c :: p) ++ sub ++ q) with (c :: (p ++ sub ++ q)).
    cbn [contains]. rewrite IH. apply orb_true_r.
Qed.

Lemma parse_exponent_plus (m : char) (ds : str) :
  m = 0x45%N \/ m = 0x65%N -> ds <> [] -> ascii_digits ds ->
  Builtins.parse_exponent (m :: 0x2b%N :: ds)
  = (Z.of_N (Builtins.digits_value (digit_values ds)), []).
Proof.
  intros Hm Hne Hds. unfold Builtins.parse_exponent.
  replace ((m =? 0x65)%N || (m =? 0x45)%N) with true
    by (destruct Hm as [-> | ->]; reflexivity).
  change (Builtins.take_sign (0x2b%N :: ds)) with (false, ds).
  rewrite <- (app_nil_r ds) at 1.
  rewrite span_digits_app by (exact Hds || exact I).
  destruct (digit_values ds) eqn:E; [|reflexivity].
  destruct ds; [congruence|discriminate].
Qed.

Section ExponentText.

Variables (neg : bool) (ip : str) (fp : option str) (m : char) (ds : str).
Hypothesis Hm : m = 0x45%N \/ m = 0x65%N.
Hypothesis Hip : ascii_digits ip.
Hypothesis Hfp : ascii_digits (fraction_digits fp).
Hypothesis Hmantissa : ip ++ fraction_digits fp <> [].
Hypothesis Hne : ds <> [].
Hypothesis Hds : ascii_digits ds.

Let text : str := minus neg ++ ip ++ fraction fp ++ m :: 0x2b%N :: ds.

Lemma exponent_text_chars (a : char) :
  In a text ->
  a = 0x2d%N \/ a = 0x2e%N \/ a = m \/ a = 0x2b%N \/
  Unicode.ascii_isdigit a = true.
Proof.
  unfold text, ascii_digits in *. rewrite Forall_forall in Hip, Hfp, Hds.
  rewrite !in_app_iff. intros [H|[H|[H|H]]].
  - destruct neg; simpl in H; intuition.
  - auto 6.
  - destruct fp as [d|]; simpl in *; [destruct H as [H|H]|];
      try contradiction; auto 6.
  - destruct H as [H|[H|H]]; auto 6.
Qed.

Lemma exponent_text_absent (a : char) :
  a <> 0x2d%N -> a <> 0x2e%N -> a <> 0x45%N -> a <> 0x65%N -> a <> 0x2b%N ->
  Unicode.ascii_isdigit a = false -> ~ In a text.
Proof.
  intros H1 H2 H3 H4 H5 H6 Hin.
  apply exponent_text_chars in Hin as [H|[H|[H|[H|H]]]]; try congruence.
  destruct Hm; congruence.
Qed.

Lemma filter_exponent_text :
  filter (fun c => negb (N.eqb c 0x2d))
    (filter (fun c => negb (N.eqb c 0x2e)) text)
  = (ip ++ fraction_digits fp) ++ m :: 0x2b%N :: ds.
Proof.
  assert (Htail : forall a, a = 0x2d%N \/ a = 0x2e%N ->
            filter (fun c => negb (N.eqb c a)) (m :: 0x2b%N :: ds)
            = m :: 0x2b%N :: ds).
  { intros a Ha.
    assert (E : filter (fun c => negb (N.eqb c a)) ds = ds)
      by (apply filter_digits; [exact Hds|destruct Ha as [-> | ->]; reflexivity]).
    destruct Ha as [-> | ->], Hm as [-> | ->]; cbn [filter N.eqb Pos.eqb negb];
      now rewrite E. }
  assert (E1 : filter (fun c => negb (N.eqb c 0x2e)) text
               = minus neg ++ ip ++ fraction_digits fp
                 ++ m :: 0x2b%N :: ds).
  { unfold text. rewrite !filter_app.
    rewrite (filter_digits _ Hip) by reflexivity.
    rewrite Htail by now right.
    f_equal; [destruct neg; reflexivity|]. f_equal. f_equal.
    destruct fp as [d|]; [|reflexivity].
    change (filter (fun c => negb (N.eqb c 0x2e)) (fraction (Some d)))
      with (filter (fun c => negb (N.eqb c 0x2e)) d).
    now apply filter_digits. }
  rewrite E1, !filter_app.
  rewrite (filter_digits _ Hip), (filter_digits _ Hfp) by reflexivity.
  rewrite Htail by now left.
  destruct neg; simpl; now rewrite <- app_assoc.
Qed.

Lemma stripped_exponent_text :
  stripped text = (ip ++ fraction_digits fp) ++ ds.
Proof.
  unfold stripped.
  rewrite (replace_char_filter 0x2e%N text : replace (lit ".") [] text = _).
  rewrite (replace_char_filter 0x2d%N _ : replace (lit "-") [] _ = _).
  rewrite filter_exponent_text.
  assert (Hnot : forall a, Unicode.ascii_isdigit a = false ->
            ~ In a (ip ++ fraction_digits fp) /\ ~ In a ds).
  { intros a Ha. split; [|exact (@ascii_digits_absent ds a Hds Ha)].
    intros H. apply in_app_or in H as [H|H].
    - exact (@ascii_digits_absent ip a Hip Ha H).
    - exact (@ascii_digits_absent _ a Hfp Ha H). }
  destruct Hm as [-> | ->].
  - transitivity (replace (lit "e+") [] ((ip ++ fraction_digits fp) ++ ds)).
    + f_equal. apply (@replace_pair_once 0x45%N 0x2b%N); now apply Hnot.
    + apply (@replace_pair_absent 0x65%N 0x2b%N).
      destruct (Hnot 0x2b%N eq_refl) as [N1 N2].
      intros H. apply in_app_or in H as [H|H]; tauto.
  - transitivity (replace (lit "e+") []
                    ((ip ++ fraction_digits fp) ++ 0x65%N :: 0x2b%N :: ds)).
    + f_equal. apply (@replace_head_absent 0x45%N [0x2b%N]).
      destruct (Hnot 0x45%N eq_refl) as [N1 N2].
      intros H. apply in_app_or in H as [H|[H|[H|H]]]; try discriminate;
        tauto.
    + apply (@replace_pair_once 0x65%N 0x2b%N); now apply Hnot.
Qed.

Lemma strtod_exponent_text :
  Builtins.strtod text
  = Some (FFinite neg
            (Builtins.digits_value (digit_values (ip ++ fraction_digits fp)))
            (Z.of_N (Builtins.digits_value (digit_values ds))
             - Z.of_nat (List.length (fraction_digits fp))),
          []).
Proof.
  assert (Hmd : Unicode.ascii_isdigit m = false /\ m <> 0x2e%N)
    by (destruct Hm as [-> | ->]; split; (reflexivity || discriminate)).
  unfold text. destruct fp as [d|]; cbn [fraction fraction_digits app] in *.
  - change (0x2e%N :: d ++ m :: 0x2b%N :: ds)
      with (0x2e%N :: (d ++ m :: 0x2b%N :: ds)).
    rewrite strtod_pointed by (assumption || tauto).
    now rewrite parse_exponent_plus.
  - rewrite app_nil_r in *.
    rewrite strtod_plain by assumption.
    rewrite parse_exponent_plus by assumption. cbn [fst snd List.length].
    now rewrite Z.sub_0_r.
Qed.

(** What the model of [float] reads from a numeral in exponent notation. *)
Lemma exponent_text_parsed :
  numeric_coercion (VStr text)
  = Ok (VFloat
          (FFinite neg
             (Builtins.digits_value
                (digit_values (ip ++ fraction_digits fp)))
             (Z.of_N (Builtins.digits_value (digit_values ds))
              - Z.of_nat (List.length (fraction_digits fp))))).
Proof.
  unfold numeric_coercion, purely_numeric.
  rewrite stripped_exponent_text.
  rewrite py_isdigit_ascii_digits.
  2:{ intros H. apply app_eq_nil in H as [_ H]. now apply Hne. }
  2:{ apply Forall_app. split; [|exact Hds].
      apply Forall_app. split; assumption. }
  unfold convert.
  replace (contains (lit "E+") text || contains (lit "e+") text) with true.
  2:{ symmetry. unfold text. rewrite !app_assoc.
      destruct Hm as [-> | ->].
      - rewrite (contains_middle [0x45%N; 0x2b%N] _ ds
                 : contains (lit "E+") _ = true). reflexivity.
      - rewrite (contains_middle [0x65%N; 0x2b%N] _ ds
                 : contains (lit "e+") _ = true). apply orb_true_r. }
  erewrite (@py_float_strtod text []);
    [reflexivity| | | |exact strtod_exponent_text].
  - apply Forall_forall. intros a Ha.
    apply exponent_text_chars in Ha as [->|[->|[->|[->|Ha]]]];
      try reflexivity.
    + destruct Hm as [-> | ->]; reflexivity.
    + now apply ascii_isdigit_plain in Ha.
  - apply exponent_text_absent; (discriminate || reflexivity).
  - unfold text. destruct neg; [reflexivity|]. cbn [minus app].
    destruct ip as [|d ip']; cbn [app].
    + destruct fp as [fd|]; [reflexivity|]. cbn [fraction_digits] in *.
      now elim Hmantissa.
    + now apply (digit_head_facts _ (Forall_inv Hip)).
Qed.


End ExponentText.


Lemma py_int_digits_limit (neg : bool) (s : str) :
  s <> [] -> ascii_digits s ->
  Builtins.py_int (minus neg ++ s)
  = if Nat.ltb Builtins.int_max_str_digits (List.length s)
    then Raise ValueError
    else Ok (let v := Z.of_N (Builtins.digits_value (digit_values s)) in
             if neg then Z.opp v else v).
Proof.
  intros Hne Hs. unfold Builtins.py_int.
  rewrite to_ascii_below by now apply minus_digits_below.
  destruct s as [|c s]; [congruence|].
  pose proof (Forall_inv Hs) as Hc. apply digit_head_facts in Hc.
  destruct Hc as [Hsp [Hm [Hp [Hu _]]]].
  rewrite skip_space_head
    by (destruct neg; simpl; [reflexivity|exact Hsp]).
  rewrite take_sign_minus by (split; assumption).
  change (starts_with [0x5f%N] (c :: s)) with ((0x5f =? c)%N && true).
  rewrite (proj2 (N.eqb_neq 0x5f c)) by congruence. cbn [andb].
  rewrite <- (app_nil_r (c :: s)) at 1.
  rewrite scan_int_app by (exact Hs || exact I).
  unfold digit_values at 1. rewrite length_map.
  destruct (Nat.ltb _ _); reflexivity.
Qed.

(** X15: a text of more than 4300 ASCII digits, with or without a leading
    ['-'], passes the guard but is kept as a text: [int] refuses it with a
    [ValueError], which is caught. *)
Theorem long_integer_text_kept (neg : bool) (s : str) :
  ascii_digits s ->
  (Builtins.int_max_str_digits < List.length s)%nat ->
  purely_numeric (minus neg ++ s) = true /\
  numeric_coercion (VStr (minus neg ++ s)) = Ok (VStr (minus neg ++ s)).
Proof.
  intros Hs Hlen.
  assert (Hne : s <> []) by (intros ->; simpl in Hlen; lia).
  assert (Hstrip : stripped (minus neg ++ s) = s).
  { rewrite stripped_filter by (apply in_minus_digits; easy).
    rewrite !filter_app, !(filter_digits _ Hs) by reflexivity.
    destruct neg; reflexivity. }
  assert (Hguard : purely_numeric (minus neg ++ s) = true)
    by (unfold purely_numeric; rewrite Hstrip;
        now apply py_isdigit_ascii_digits).
  split; [exact Hguard|].
  unfold numeric_coercion. rewrite Hguard. unfold convert.
  replace (contains (lit "E+") (minus neg ++ s)) with false
    by (symmetry; apply (@contains_absent 0x45%N); apply in_minus_digits;
        easy).
  replace (contains (lit "e+") (minus neg ++ s)) with false
    by (symmetry; apply (@contains_absent 0x65%N); apply in_minus_digits;
        easy).
  replace (contains (lit ".") (minus neg ++ s)) with false
    by (symmetry; apply (@contains_absent 0x2e%N); apply in_minus_digits;
        easy).
  cbn [orb]. rewrite py_int_digits_limit by assumption.
  apply Nat.ltb_lt in Hlen. rewrite Hlen. reflexivity.
Qed.

Lemma long_integer_text_kept_witness :
  numeric_coercion (VStr (repeat 0x31%N 4301))
  = Ok (VStr (repeat 0x31%N 4301)).
Proof.
  apply (proj2 (@long_integer_text_kept false (repeat 0x31%N 4301)
                  ltac:(apply Forall_forall; intros c Hc;
                        apply repeat_spec in Hc; subst; reflexivity)
                  ltac:(rewrite repeat_length; apply Nat.ltb_lt;
                        vm_compute; reflexivity))).
Defined.

Lemma renamed_idempotent (record : jrecord) :
  renamed (renamed record) = renamed record.
Proof.
  unfold renamed at 1. rewrite fold_copy; [reflexivity| |].
  - apply NoDup_keys_renamed.
  - intros [k' v'] Hin. apply in_fold in Hin as [[]|[item [_ [-> ->]]]].
    simpl. split; [apply new_field_idempotent|apply coerced_idempotent].
Qed.

(** X8: running the program on its own output changes nothing: the collection
    that a run returns is returned again by a run over it. *)
Theorem rerun_changes_nothing
    (input_file output_file input_file' output_file' : str)
    (data : list jrecord) :
  exists standardized_data,
    snd (standardize_json_fields input_file output_file data)
    = Ok standardized_data /\
    snd (standardize_json_fields input_file' output_file' standardized_data)
    = Ok standardized_data.
Proof.
  exists (List.map renamed data).
  split; [apply standardize_json_fields_Ok|].
  rewrite standardize_json_fields_Ok, map_map. f_equal.
  apply map_ext. apply renamed_idempotent.
Qed.
